(** * notion-astro-loader: the page renderer (render.js)

    A shallow embedding of the block materializer ([listBlocks]), the
    outline extractor ([extractTocHeadings]), the transform pipeline builder
    ([buildProcessor]) and the page renderer ([NotionPageRenderer]), with the
    properties the specification states about them. *)

From Stdlib Require Import String Ascii List.
From stdpp Require Import base option list strings gmap.

Open Scope string_scope.

Set Warnings "-register-all".

(** ** JavaScript completions

    A JavaScript call either returns a value or throws one.  What is thrown is
    an [Error] object (with its [name], which sets a [TypeError] raised by the
    engine apart from a plain [Error]), a string, or something else;
    [getErrorMessage] tells exactly these three apart. *)

Inductive Thrown : Type :=
  | ErrorObject (name message : string)
  | ThrownString (s : string)
  | ThrownOther.

Inductive Completion (A : Type) : Type :=
  | Return (a : A)
  | Throw (e : Thrown).

Arguments Return {A} a.
Arguments Throw {A} e.

#[global] Instance Completion_ret : MRet Completion := @Return.
#[global] Instance Completion_bind : MBind Completion := fun A B f m =>
  match m with
  | Return a => f a
  | Throw e => Throw e
  end.

Definition getErrorMessage (error : Thrown) : string :=
  match error with
  | ErrorObject _ message => message
  | ThrownString s => s
  | ThrownOther => "Unknown error"
  end.

(** Errors the engine raises on a property read of [undefined]; the message
    is the one V8 prints. *)
Definition TypeError (message : string) : Thrown := ErrorObject "TypeError" message.

Definition cannotRead (property : string) : Thrown :=
  TypeError ("Cannot read properties of undefined (reading '" +:+ property +:+ "')").

(** ** The markup tree (hast) handed to [customizeTOC] *)

Inductive Node : Type :=
  | Element (tagName : string) (properties : gmap string string) (children : list Node)
  | Text (value : string).

(** [node.tagName] and [node.value]: [None] is [undefined]. *)
Definition tagName_of (node : Node) : option string :=
  match node with
  | Element tagName _ _ => Some tagName
  | Text _ => None
  end.

Definition value_of (node : Node) : option string :=
  match node with
  | Element _ _ _ => None
  | Text value => Some value
  end.

(** The string a template literal prints for a possibly undefined string. *)
Definition template (v : option string) : string :=
  match v with
  | Some s => s
  | None => "undefined"
  end.

(** ** Heading records

    [text] is [link.children[0].value], which is [undefined] ([None]) when the
    first child of the link is an element and not a text node. *)
Record MarkdownHeading : Type := mkHeading {
  depth : nat;
  text : option string;
  slug : string;
}.

(** What the variable [headings] captured by a built pipeline holds. *)
Abbreviation Slot := (list MarkdownHeading).

(** [href.slice(1)]: the string without its first character. *)
Definition slice1 (s : string) : string :=
  match s with
  | EmptyString => EmptyString
  | String _ rest => rest
  end.

(** ** extractTocHeadings *)

(** The object literal [{ depth, text: link.children[0].value,
    slug: link.properties.href.slice(1) }], for [link = li.children[0]]
    ([None] when the item has no child at all). *)
Definition currentHeading (depth : nat) (link : option Node) : Completion MarkdownHeading :=
  match link with
  | None => Throw (cannotRead "children")
  | Some (Text _) => Throw (cannotRead "0")
  | Some (Element _ properties children) =>
      match children with
      | [] => Throw (cannotRead "value")
      | first :: _ =>
          match properties !! "href" with
          | None => Throw (cannotRead "slice")
          | Some href => Return (mkHeading depth (value_of first) (slice1 href))
          end
      end
  end.

(** [listElementToTree(ol, depth)].  The inner loop is [ol.children.flatMap]:
    the callback runs on the items from left to right and the first throw
    ends the whole call.  [const [_link, subList] = li.children] reads the
    first two children of the item; [if (subList)] holds as soon as there is
    a second child, whatever it is. *)
Fixpoint listElementToTree (ol : Node) (depth : nat) {struct ol}
  : Completion (list MarkdownHeading) :=
  match ol with
  | Text _ => Throw (cannotRead "flatMap")
  | Element _ _ items =>
      (fix flatMap (lis : list Node) : Completion (list MarkdownHeading) :=
         match lis with
         | [] => Return []
         | li :: rest =>
             let callback :=
               match li with
               | Text _ => Throw (TypeError "undefined is not iterable")
               | Element _ _ [] =>
                   h ← currentHeading depth None; Return [h]
               | Element _ _ [_link] =>
                   h ← currentHeading depth (Some _link); Return [h]
               | Element _ _ (_link :: subList :: _) =>
                   h ← currentHeading depth (Some _link);
                   nested ← listElementToTree subList (S depth);
                   Return (h :: nested)
               end in
             headings ← callback;
             others ← flatMap rest;
             Return (headings ++ others)%list
         end) items
  end.

(** The callback of [flatMap] and the loop, as functions of their own (for
    rewriting: [listElementToTree_Element] below). *)
Definition itemHeadings (depth : nat) (li : Node) : Completion (list MarkdownHeading) :=
  match li with
  | Text _ => Throw (TypeError "undefined is not iterable")
  | Element _ _ [] =>
      h ← currentHeading depth None; Return [h]
  | Element _ _ [_link] =>
      h ← currentHeading depth (Some _link); Return [h]
  | Element _ _ (_link :: subList :: _) =>
      h ← currentHeading depth (Some _link);
      nested ← listElementToTree subList (S depth);
      Return (h :: nested)
  end.

Fixpoint flatMapItems (depth : nat) (lis : list Node) : Completion (list MarkdownHeading) :=
  match lis with
  | [] => Return []
  | li :: rest =>
      headings ← itemHeadings depth li;
      others ← flatMapItems depth rest;
      Return (headings ++ others)%list
  end.

Definition extractTocHeadings (toc : Node) : Completion (list MarkdownHeading) :=
  if decide (tagName_of toc = Some "nav") then
    match toc with
    | Element _ _ (ol :: _) => listElementToTree ol 0
    | Element _ _ [] => Throw (cannotRead "children")
    | Text _ => Throw (cannotRead "0")
    end
  else Throw (ErrorObject "Error" ("Expected nav, got " +:+ template (tagName_of toc))).

(** ** The outline the navigation tree stands for

    The specification describes the navigation tree as a nested list whose
    items are a link with an optional nested list.  [Outline] is that nested
    list, [TocNav] says that a markup tree is its rendering, and
    [outlineHeadings] is the extraction as the specification words it. *)

Inductive Outline : Type :=
  | OutlineItem (text slug : string) (nested : list Outline).

(** One record per item, at the depth of its list, followed by the records
    of its nested list one level deeper. *)
Fixpoint preorder (depth : nat) (item : Outline) : list MarkdownHeading :=
  match item with
  | OutlineItem text slug nested =>
      mkHeading depth (Some text) slug :: flat_map (preorder (S depth)) nested
  end.

Definition outlineHeadings (items : list Outline) : list MarkdownHeading :=
  flat_map (preorder 0) items.

(** The link of an item: its visible text is its single text child, its
    target is the fragment identifier [#slug]. *)
Definition TocLink (link : Node) (text slug : string) : Prop :=
  exists properties,
    link = Element "a" properties [Text text] /\
    properties !! "href" = Some ("#" +:+ slug).

Inductive TocItem : Node -> Outline -> Prop :=
  | TocItem_leaf properties link text slug :
      TocLink link text slug ->
      TocItem (Element "li" properties [link]) (OutlineItem text slug [])
  | TocItem_nested properties link text slug subList nested :
      TocLink link text slug ->
      TocList subList nested ->
      TocItem (Element "li" properties [link; subList]) (OutlineItem text slug nested)
with TocList : Node -> list Outline -> Prop :=
  | TocList_ol properties lis items :
      TocItems lis items ->
      TocList (Element "ol" properties lis) items
with TocItems : list Node -> list Outline -> Prop :=
  | TocItems_nil : TocItems [] []
  | TocItems_cons li item lis items :
      TocItem li item ->
      TocItems lis items ->
      TocItems (li :: lis) (item :: items).

(** The expected shape: a root navigation container wrapping exactly one
    top-level list of well-formed items. *)
Definition TocNav (toc : Node) (items : list Outline) : Prop :=
  exists properties ol,
    toc = Element "nav" properties [ol] /\ TocList ol items.

(** The shape as the contract of the extractor names it, looking no further
    than the root and its children: a [nav] with exactly one child, a list. *)
Definition NavWithOneList (toc : Node) : Prop :=
  exists properties listProperties lis,
    toc = Element "nav" properties [Element "ol" listProperties lis].

(** The navigation tree rehype-toc builds for an outline (its class names
    left out). *)
Fixpoint tocItemOf (item : Outline) : Node :=
  match item with
  | OutlineItem text slug nested =>
      let link := Element "a" {[ "href" := "#" +:+ slug ]} [Text text] in
      match nested with
      | [] => Element "li" ∅ [link]
      | _ :: _ => Element "li" ∅ [link; Element "ol" ∅ (map tocItemOf nested)]
      end
  end.

Definition tocOf (items : list Outline) : Node :=
  Element "nav" ∅ [Element "ol" ∅ (map tocItemOf items)].

(** ** Blocks

    A media payload of the remote API is a tagged union:
    [{type: "external", external: {url}, caption}] or
    [{type: "file", file: {url, expiry_time}, caption}]. *)

Definition RichText : Type := string.

Inductive MediaFile : Type :=
  | ExternalFile (url : string) (caption : list RichText)
  | UploadedFile (url expiry_time : string) (caption : list RichText).

(** [file.type] *)
Definition file_type (file : MediaFile) : string :=
  match file with
  | ExternalFile _ _ => "external"
  | UploadedFile _ _ _ => "file"
  end.

(** [file.type === "external" ? file.external.url : file.file.url] *)
Definition file_url (file : MediaFile) : string :=
  match file with
  | ExternalFile url _ => url
  | UploadedFile url _ _ => url
  end.

(** [file.caption] *)
Definition file_caption (file : MediaFile) : list RichText :=
  match file with
  | ExternalFile _ caption => caption
  | UploadedFile _ _ caption => caption
  end.

(** The payload a media block is given before it reaches the pipeline:
    [{type: T, [T]: url, caption}], the url stored under the key the tag
    names. *)
Record MediaReference : Type := mkMediaReference {
  media_type : string;
  media_url : string;
  media_caption : list RichText;
}.

(** What [block[block.type]] holds.  The tag [block.type] selects the
    payload, so the two are one constructor; [OtherContent] is every kind
    other than image and video, with its payload kept opaque. *)
Inductive BlockContent : Type :=
  | ImageContent (image : MediaFile)
  | VideoContent (video : MediaFile)
  | OtherContent (type : string) (payload : string).

(** The remote API as [listBlocks] sees it.  A block is a placeholder
    ([isFullBlock] is false) or a full block; a full block carries, as
    [listed], what [iteratePaginatedAPI(client.blocks.children.list,
    {block_id: id})] delivers for its own id.  A listing delivers blocks one
    by one until it ends or a page fetch fails. *)
Inductive RemoteBlock : Type :=
  | PartialBlock (id : string)
  | FullBlock (id : string) (has_children : bool) (content : BlockContent)
              (listed : Listing)
with Listing : Type :=
  | EndOfList
  | ListingFailed (e : Thrown)
  | NextBlock (block : RemoteBlock) (rest : Listing).

(** A block as [listBlocks] yields it.  An image or video block is the
    source block with its payload replaced by a fresh [MediaReference]
    object; any other block is the source block itself, whose payload was
    given a [children] field when [has_children] is set ([None]: the field is
    absent). *)
Inductive Block : Type :=
  | ImageBlock (id : string) (has_children : bool) (image : MediaReference)
  | VideoBlock (id : string) (has_children : bool) (video : MediaReference)
  | OtherBlock (id : string) (has_children : bool) (type : string) (payload : string)
               (children : option (list Block)).

(** [block[block.type].children] of a yielded block: [None] when the
    payload has no such field. *)
Definition childrenOf (block : Block) : option (list Block) :=
  match block with
  | ImageBlock _ _ _ | VideoBlock _ _ _ => None
  | OtherBlock _ _ _ _ children => children
  end.

(** ** The store

    What a renderer instance, the pipeline it is handed and their
    environment mutate: the private field [#imagePaths], the lines handed
    to the logger, the calls made to the asset resolver [fileToImageAsset]
    (kept to state which calls happen), and the variable [headings]
    captured by the pipeline. *)

Inductive Level : Type := LogDebug | LogWarn | LogError.

Record LogEntry : Type := mkLogEntry {
  level : Level;
  label : string;
  message : string;
}.

Record Store : Type := mkStore {
  imagePaths : list string;
  logged : list LogEntry;
  assetCalls : list MediaFile;
  captured : Slot;
}.

(** Code that runs on a mutable state [S] and returns or throws; a throw
    keeps the writes made before it. *)
Definition St (S A : Type) : Type := S -> Completion A * S.

#[global] Instance St_ret {S : Type} : MRet (St S) := fun A a s => (Return a, s).
#[global] Instance St_bind {S : Type} : MBind (St S) := fun A B f m s =>
  match m s with
  | (Return a, s') => f a s'
  | (Throw e, s') => (Throw e, s')
  end.

(** [await] of a settled promise, [try { body } catch (error) { handler }] *)
Definition await {S A : Type} (settled : Completion A) : St S A := fun s => (settled, s).

Definition try_catch {S A : Type} (body : St S A) (handler : Thrown -> St S A) : St S A :=
  fun s =>
    match body s with
    | (Return a, s') => (Return a, s')
    | (Throw e, s') => handler e s'
    end.

(** Reading and writing the whole state. *)
Definition get {S : Type} : St S S := fun s => (Return s, s).
Definition put {S : Type} (s : S) : St S unit := fun _ => (Return tt, s).

Abbreviation M := (St Store).

Definition log (lvl : Level) (logger : string) (msg : string) : M unit := fun s =>
  (Return tt, mkStore (imagePaths s) (logged s ++ [mkLogEntry lvl logger msg]) (assetCalls s)
                  (captured s)).

(** [this.#imagePaths.push(src)] *)
Definition push (src : string) : M unit := fun s =>
  (Return tt, mkStore (imagePaths s ++ [src]) (logged s) (assetCalls s) (captured s)).

Definition called (file : MediaFile) : M unit := fun s =>
  (Return tt, mkStore (imagePaths s) (logged s) (assetCalls s ++ [file]) (captured s)).

Definition read_imagePaths : M (list string) := fun s => (Return (imagePaths s), s).

(** Code of the pipeline, run on the variable it captures. *)
Definition withCaptured (slot : Slot) (s : Store) : Store :=
  mkStore (imagePaths s) (logged s) (assetCalls s) slot.

Definition inPipeline {A : Type} (m : St Slot A) : M A := fun s =>
  let (outcome, slot) := m (captured s) in (outcome, withCaptured slot s).

(** ** Pages, renderer instances, rendered entries *)

Inductive SafeParse : Type :=
  | ParseSuccess (data : string)
  | ParseFailure (error : string).

Record Page : Type := mkPage {
  page_id : string;
  properties_Name : string;
}.

(** The fields of an instance that never change: [client] (what the remote
    API serves it for the page id), [page] and the forked [#logger]. *)
Record Renderer : Type := mkRenderer {
  client : Listing;
  page : Page;
  logger : string;
}.

Record VFile : Type := mkVFile { toString : string }.

Record ProcessOutput : Type := mkProcessOutput {
  vFile : VFile;
  headings : list MarkdownHeading;
}.

Record Metadata : Type := mkMetadata {
  md_headings : list MarkdownHeading;
  md_imagePaths : list string;
}.

Record RenderedNotionEntry : Type := mkEntry {
  html : string;
  metadata : Metadata;
}.

Definition quote : string := String (ascii_of_nat 34) EmptyString.
Definition newline : string := String (ascii_of_nat 10) EmptyString.

Definition fetchFailedMessage (reason : string) : string :=
  "Failed to fetch image when rendering page." +:+ newline +:+
  "Have you added `image: { remotePatterns: [{ protocol: " +:+ quote +:+ "https" +:+ quote +:+
  ", hostname: " +:+ quote +:+ "*.amazonaws.com" +:+ quote +:+
  " }] }` to your Astro config file?" +:+ newline +:+ newline +:+
  "Error: " +:+ reason.

(** ** Listings and trees: the predicates the properties speak of *)

(** A listing that delivers placeholders only, and ends. *)
Fixpoint allPlaceholders (items : Listing) : bool :=
  match items with
  | EndOfList => true
  | ListingFailed _ => false
  | NextBlock (PartialBlock _) rest => allPlaceholders rest
  | NextBlock (FullBlock _ _ _ _) _ => false
  end.

Definition isMedia (content : BlockContent) : bool :=
  match content with
  | ImageContent _ | VideoContent _ => true
  | OtherContent _ _ => false
  end.

(** No image and no video block in the tree [listBlocks] walks (the
    children of a block count when [has_children] is set). *)
Fixpoint mediaFree (items : Listing) : bool :=
  match items with
  | EndOfList | ListingFailed _ => true
  | NextBlock block rest => blockMediaFree block && mediaFree rest
  end
with blockMediaFree (block : RemoteBlock) : bool :=
  match block with
  | PartialBlock _ => true
  | FullBlock _ has_children content listed =>
      negb (isMedia content) && (if has_children then mediaFree listed else true)
  end.

(** No listing fails in the tree [listBlocks] walks. *)
Fixpoint completes (items : Listing) : bool :=
  match items with
  | EndOfList => true
  | ListingFailed _ => false
  | NextBlock block rest => blockCompletes block && completes rest
  end
with blockCompletes (block : RemoteBlock) : bool :=
  match block with
  | PartialBlock _ => true
  | FullBlock _ has_children _ listed =>
      if has_children then completes listed else true
  end.

(** ** The pipeline and its calls

    One built pipeline has one captured variable, [let headings = []] of
    [buildProcessor]; it is the whole state the pipeline code runs on. *)

(** A transformer of the chain. *)
Definition Transformer : Type := Node -> St Slot Node.

Record Processor : Type := mkProcessor { transformers : list Transformer }.

(** [processor.use(plugin, options)] *)
Definition use (processor : Processor) (transformer : Transformer) : Processor :=
  mkProcessor (transformers processor ++ [transformer]).

Definition runTransformers (chain : list Transformer) (tree : Node) : St Slot Node :=
  foldl (fun (acc : St Slot Node) (t : Transformer) => tree' ← acc; t tree') (mret tree) chain.

(** A call of [process] between two of its suspension points.  It is
    suspended at [await processorPromise] right after it is made
    ([Called]), then at [await processor.process(...)] once the chain ran
    ([Transformed]), and is over when it returned or threw ([Settled]). *)
Inductive Call : Type :=
  | Called (blocks : list Block)
  | Transformed (outcome : Completion VFile)
  | Settled (result : Completion ProcessOutput).

(** What the asset resolver returns: the local reference is its [src]. *)
Record ImageAsset : Type := mkImageAsset { src : string }.

Section Loader.

(** The collaborators imported from outside this file: the asset resolver
    and the fallback url of [./format.js], the title schema of
    [./schemas/transformed-properties.js], and the stages of the unified
    chain. *)
Variable fileToImageAsset : MediaFile -> Completion ImageAsset.
Variable fileToUrl : MediaFile -> string.
Variable title_safeParse : string -> SafeParse.

Variable notionRehype : list Block -> Completion Node.
Variable rehypeSlug rehypeKatex : Node -> Completion Node.
Variable createTOC : Node -> Node.
Variable insertTOC : Node -> Node -> Node.
Variable rehypeStringify : Node -> string.
Variable Options : Type.

(** *** listBlocks *)

(** [#fetchImage] *)
Definition fetchImage (this : Renderer) (imageFileObject : MediaFile) : M string :=
  called imageFileObject;;
  match fileToImageAsset imageFileObject with
  | Return fetchedImageData =>
      push (src fetchedImageData);;
      mret (src fetchedImageData)
  | Throw error =>
      log LogError (logger this) (fetchFailedMessage (getErrorMessage error));;
      mret (fileToUrl imageFileObject)
  end.

(** [awaitAll(listBlocks(client, blockId, fetchImage))]: the blocks the
    generator yields for a listing, drained in order.  [yieldOf] is the
    body of the loop for one delivered block: nothing for a placeholder,
    else the children first (when [has_children]), then the block. *)
Fixpoint listBlocks (fetchImage : MediaFile -> M string) (items : Listing)
  : M (list Block) :=
  match items with
  | EndOfList => mret []
  | ListingFailed e => await (Throw e)
  | NextBlock block rest =>
      yielded ← yieldOf fetchImage block;
      others ← listBlocks fetchImage rest;
      mret (option_list yielded ++ others)%list
  end
with yieldOf (fetchImage : MediaFile -> M string) (block : RemoteBlock)
  : M (option Block) :=
  match block with
  | PartialBlock _ => mret None
  | FullBlock id has_children content listed =>
      children ← (if has_children
                  then children ← listBlocks fetchImage listed; mret (Some children)
                  else mret None);
      match content with
      | ImageContent image =>
          url ← fetchImage image;
          mret (Some (ImageBlock id has_children
                        (mkMediaReference (file_type image) url (file_caption image))))
      | VideoContent video =>
          mret (Some (VideoBlock id has_children
                        (mkMediaReference (file_type video) (file_url video)
                                          (file_caption video))))
      | OtherContent type payload =>
          mret (Some (OtherBlock id has_children type payload children))
      end
  end.

(** The images of a listing in the order [listBlocks] comes to them:
    depth-first, the blocks of a listing in the order delivered, the
    images listed under a block before the image of the block itself. *)
Fixpoint imagesOf (items : Listing) : list MediaFile :=
  match items with
  | EndOfList | ListingFailed _ => []
  | NextBlock block rest => blockImages block ++ imagesOf rest
  end
with blockImages (block : RemoteBlock) : list MediaFile :=
  match block with
  | PartialBlock _ => []
  | FullBlock _ has_children content listed =>
      (if has_children then imagesOf listed else []) ++
      match content with
      | ImageContent image => [image]
      | VideoContent _ | OtherContent _ _ => []
      end
  end.

(** The local references of the files the resolver succeeds on, in
    order; a failed resolution gives none. *)
Definition resolved (files : list MediaFile) : list string :=
  flat_map (fun file =>
              match fileToImageAsset file with
              | Return fetchedImageData => [src fetchedImageData]
              | Throw _ => []
              end) files.

(** The url [#fetchImage] returns for a file: the local reference, or
    the remote url when the resolver fails. *)
Definition urlFor (file : MediaFile) : string :=
  match fileToImageAsset file with
  | Return fetchedImageData => src fetchedImageData
  | Throw _ => fileToUrl file
  end.

(** The block tree of a listing when every image is given the url
    [urlOf] picks for its source file object, computed without any
    effect. *)
Fixpoint blocksWith (urlOf : MediaFile -> string) (items : Listing) : list Block :=
  match items with
  | EndOfList | ListingFailed _ => []
  | NextBlock block rest =>
      (option_list (blockWith urlOf block) ++ blocksWith urlOf rest)%list
  end
with blockWith (urlOf : MediaFile -> string) (block : RemoteBlock) : option Block :=
  match block with
  | PartialBlock _ => None
  | FullBlock id has_children content listed =>
      Some match content with
           | ImageContent image =>
               ImageBlock id has_children
                 (mkMediaReference (file_type image) (urlOf image) (file_caption image))
           | VideoContent video =>
               VideoBlock id has_children
                 (mkMediaReference (file_type video) (file_url video) (file_caption video))
           | OtherContent type payload =>
               OtherBlock id has_children type payload
                 (if has_children then Some (blocksWith urlOf listed) else None)
           end
  end.

(** *** NotionPageRenderer *)

(** [parentLogger.fork(label)]: a logger with that label. *)
Definition fork (parentLogger label : string) : string := label.

(** The label of the forked logger:
    [`page ${page.id} (Name ${pageTitle.success ? pageTitle.data : "unknown"})`]
    (the page context of every line the instance logs). *)
Definition pageLabel (page : Page) : string :=
  "page " +:+ page_id page +:+ " (Name " +:+
  match title_safeParse (properties_Name page) with
  | ParseSuccess data => data
  | ParseFailure _ => "unknown"
  end +:+ ")".

(** The constructor: the field initializer [#imagePaths = []], the forked
    logger, a warning when the page name is no title. *)
Definition NotionPageRenderer (client : Listing) (page : Page) (parentLogger : string)
  : M Renderer :=
  let pageTitle := title_safeParse (properties_Name page) in
  let logger := fork parentLogger (pageLabel page) in
  s ← get;
  put (mkStore [] (logged s) (assetCalls s) (captured s));;
  match pageTitle with
  | ParseSuccess _ => mret tt
  | ParseFailure error =>
      log LogWarn logger ("Failed to parse property Name as title: " +:+ error)
  end;;
  mret (mkRenderer client page logger).

(** [render(process)], with [process] the function a built pipeline
    offers; the call runs from its start to its return here (calls that
    overlap are the matter of [resume] below).  The returned [imagePaths] is the field [#imagePaths] as it is
    when the call returns (the entry holds the array itself, not a copy:
    what a later call pushes shows in it as well). *)
Definition render (this : Renderer) (process : list Block -> St Slot ProcessOutput)
  : M (option RenderedNotionEntry) :=
  log LogDebug (logger this) "Rendering";;
  try_catch
    (blocks ← listBlocks (fetchImage this) (client this);
     output ← inPipeline (process blocks);
     log LogDebug (logger this) "Rendered";;
     paths ← read_imagePaths;
     mret (Some (mkEntry (toString (vFile output))
                         (mkMetadata (headings output) paths))))
    (fun error =>
       log LogError (logger this) ("Failed to render: " +:+ getErrorMessage error);;
       mret None).

(** The store once [this.#logger] was handed one more line. *)
Definition logLine (lvl : Level) (this : Renderer) (msg : string) (s : Store) : Store :=
  mkStore (imagePaths s) (logged s ++ [mkLogEntry lvl (logger this) msg]) (assetCalls s)
          (captured s).

(** The stores an instance goes through: the one its constructor leaves,
    then whatever its [render] calls leave; code outside the class cannot
    write the private field. *)
Inductive Alive (this : Renderer) : Store -> Prop :=
  | Alive_new parentLogger s s' :
      NotionPageRenderer (client this) (page this) parentLogger s = (Return this, s') ->
      Alive this s'
  | Alive_render process s result s' :
      Alive this s ->
      render this process s = (result, s') ->
      Alive this s'
  | Alive_elsewhere s s' :
      Alive this s ->
      imagePaths s' = imagePaths s ->
      Alive this s'.

(** *** buildProcessor *)

Definition RehypePlugin : Type := Options -> Node -> Completion Node.

(** A stage that does not touch the captured variable. *)
Definition stage (transform : Node -> Completion Node) : Transformer :=
  fun tree => await (transform tree).

(** [unified().use(notionRehype, {}).use(rehypeSlug).use(rehypeKatex)
    .use(rehypeStringify)]: the parser and the compiler are fixed, the
    transformers are the two in between. *)
Definition baseProcessor : Processor := mkProcessor [stage rehypeSlug; stage rehypeKatex].

(** [customizeTOC(toc) { headings = extractTocHeadings(toc); return false; }] *)
Definition customizeTOC (toc : Node) : St Slot (option Node) :=
  extracted ← await (extractTocHeadings toc);
  put extracted;;
  mret None.

(** rehype-toc: derive the navigation tree, hand it to the hook, insert
    what the hook returns unless it returns [false]. *)
Definition rehypeToc (customizeTOC : Node -> St Slot (option Node)) : Transformer :=
  fun tree =>
    customized ← customizeTOC (createTOC tree);
    mret match customized with
         | Some nav => insertTOC nav tree
         | None => tree
         end.

Definition processorWithToc : Processor := use baseProcessor (rehypeToc customizeTOC).

Definition processorPromise (rehypePlugins : Completion (list (RehypePlugin * Options)))
  : Completion Processor :=
  plugins ← rehypePlugins;
  mret (foldl (fun processor '(plugin, options) => use processor (stage (plugin options)))
              processorWithToc plugins).

(** [processor.process({ data: blocks })] *)
Definition processor_process (processor : Processor) (blocks : list Block) : St Slot VFile :=
  tree ← await (notionRehype blocks);
  tree ← runTransformers (transformers processor) tree;
  mret (mkVFile (rehypeStringify tree)).

(** The function [buildProcessor] returns, run from call to return with
    nothing else in between. *)
Definition buildProcessor (rehypePlugins : Completion (list (RehypePlugin * Options)))
  : list Block -> St Slot ProcessOutput :=
  fun blocks =>
    processor ← await (processorPromise rehypePlugins);
    vFile ← processor_process processor blocks;
    headings ← get;
    mret (mkProcessOutput vFile headings).

(** The markup tree of a block tree, as it reaches the table-of-contents
    stage, and the headings of the block tree: those of the navigation
    tree rehype-toc derives from that markup tree. *)
Definition markupOf (blocks : list Block) : Completion Node :=
  tree ← notionRehype blocks;
  tree ← rehypeSlug tree;
  rehypeKatex tree.

Definition ownHeadings (blocks : list Block) : Completion (list MarkdownHeading) :=
  tree ← markupOf blocks;
  extractTocHeadings (createTOC tree).

(** The caller's plugins, run in order on a markup tree. *)
Fixpoint runPlugins (plugins : list (RehypePlugin * Options)) (tree : Node)
  : Completion Node :=
  match plugins with
  | [] => Return tree
  | (plugin, options) :: later =>
      tree' ← plugin options tree;
      runPlugins later tree'
  end.

(** The file the stages after the table of contents give. *)
Definition fileOf (plugins : list (RehypePlugin * Options)) (tree : Node)
  : Completion VFile :=
  tree' ← runPlugins plugins tree;
  Return (mkVFile (rehypeStringify tree')).

(** The same function one suspension point at a time: a resumed call
    runs up to its next [await]. *)
Definition resume (rehypePlugins : Completion (list (RehypePlugin * Options)))
           (call : Call) (slot : Slot) : Call * Slot :=
  match call with
  | Called blocks =>
      match processorPromise rehypePlugins with
      | Return processor =>
          let (outcome, slot') := processor_process processor blocks slot in
          (Transformed outcome, slot')
      | Throw e => (Settled (Throw e), slot)
      end
  | Transformed (Return vFile) => (Settled (Return (mkProcessOutput vFile slot)), slot)
  | Transformed (Throw e) => (Settled (Throw e), slot)
  | Settled result => (Settled result, slot)
  end.

(** Calls in flight on one built pipeline; [schedule] names, step by step,
    the call the event loop resumes. *)
Fixpoint runCalls (rehypePlugins : Completion (list (RehypePlugin * Options)))
         (schedule : list nat) (calls : list Call) (slot : Slot) : list Call * Slot :=
  match schedule with
  | [] => (calls, slot)
  | i :: later =>
      match calls !! i with
      | Some call =>
          let (call', slot') := resume rehypePlugins call slot in
          runCalls rehypePlugins later (<[i := call']> calls) slot'
      | None => runCalls rehypePlugins later calls slot
      end
  end.
End Loader.

(** ** Sample documents and collaborators *)

Module Sample.

(** The navigation tree of a document whose headings have the levels
    1, 2, 2, 1. *)
Definition outline1221 : list Outline :=
  [ OutlineItem "Overview" "overview"
      [ OutlineItem "Install" "install" []; OutlineItem "Usage" "usage" [] ];
    OutlineItem "Details" "details" [] ].

Definition toc1221 : Node := tocOf outline1221.

(** A [nav] that wraps two lists. *)
Definition navTwoLists : Node :=
  Element "nav" ∅ [Element "ol" ∅ []; Element "ol" ∅ []].

(** A resolver that stores external images and fails on uploaded ones,
    and one that always fails. *)
Definition resolver (file : MediaFile) : Completion ImageAsset :=
  match file with
  | ExternalFile url _ => Return (mkImageAsset ("/_astro/" +:+ url))
  | UploadedFile _ _ _ => Throw (ErrorObject "Error" "fetch failed")
  end.

Definition failingResolver (file : MediaFile) : Completion ImageAsset :=
  Throw (ErrorObject "Error" "fetch failed").

Definition titleSchema (name : string) : SafeParse := ParseSuccess name.

(** Stand-ins for the stages of the chain: headings become [h1]
    elements, and the navigation tree lists them. *)
Definition parse (blocks : list Block) : Completion Node :=
  Return (Element "div" ∅
    (flat_map (fun block =>
                 match block with
                 | OtherBlock _ _ "heading_1" title _ =>
                     [Element "h1" {[ "id" := title ]} [Text title]]
                 | _ => []
                 end) blocks)).

Definition tocStage (tree : Node) : Node :=
  match tree with
  | Element _ _ children =>
      tocOf (flat_map (fun node =>
                         match node with
                         | Element "h1" _ [Text title] => [OutlineItem title title []]
                         | _ => []
                         end) children)
  | Text _ => tocOf []
  end.

Definition identityStage (tree : Node) : Completion Node := Return tree.

Definition stringify (tree : Node) : string :=
  match tree with
  | Element _ _ children =>
      String.concat EmptyString (map (fun node => match node with
                               | Element _ _ [Text title] => "<h1>" +:+ title +:+ "</h1>"
                               | _ => EmptyString
                               end) children)
  | Text value => value
  end.

Definition noPlugins : Completion (list (RehypePlugin unit * unit)) := Return [].

Definition build : list Block -> St Slot ProcessOutput :=
  buildProcessor parse identityStage identityStage tocStage (fun _ tree => tree)
                 stringify unit noPlugins.

Definition docA : list Block := [OtherBlock "a1" false "heading_1" "Alpha" None].
Definition docB : list Block := [OtherBlock "b1" false "heading_1" "Beta" None].

Definition external (url : string) : MediaFile := ExternalFile url ["a caption"].
Definition uploaded (url : string) : MediaFile := UploadedFile url "2026-01-01" [].

(** A page: a heading, an external image, a toggle holding an uploaded
    image and a placeholder, a video. *)
Definition pageListing : Listing :=
  NextBlock (FullBlock "b1" false (OtherContent "heading_1" "Alpha") EndOfList)
 (NextBlock (FullBlock "b2" false (ImageContent (external "https://x.test/a.png")) EndOfList)
 (NextBlock (FullBlock "b3" true (OtherContent "toggle" "more")
               (NextBlock (FullBlock "b4" false
                             (ImageContent (uploaded "https://s3.test/b.png")) EndOfList)
               (NextBlock (PartialBlock "b5") EndOfList)))
 (NextBlock (FullBlock "b6" false (VideoContent (external "https://v.test/c.mp4")) EndOfList)
  EndOfList))).

(** A page with no media, and a block whose children are placeholders. *)
Definition textListing : Listing :=
  NextBlock (FullBlock "t1" false (OtherContent "heading_1" "Alpha") EndOfList)
 (NextBlock (FullBlock "t2" true (OtherContent "toggle" "more")
               (NextBlock (FullBlock "t3" false (OtherContent "paragraph" "text") EndOfList)
                EndOfList))
  EndOfList).

Definition placeholders : Listing :=
  NextBlock (PartialBlock "p1") (NextBlock (PartialBlock "p2") EndOfList).

Definition thePage : Page := mkPage "page-1" "Home".

Definition renderer (served : Listing) : Renderer :=
  mkRenderer served thePage "page page-1 (Name Home)".

Definition emptyStore : Store := mkStore [] [] [] [].

(** The store one render of the page leaves. *)
Definition afterFirstRender : Store :=
  snd (render resolver file_url (renderer pageListing) build emptyStore).

(** Blocks that declare children and are served placeholders only. *)
Definition toggleOfPlaceholders : RemoteBlock :=
  FullBlock "g1" true (OtherContent "toggle" "more") placeholders.

Definition imageOfPlaceholders : RemoteBlock :=
  FullBlock "i1" true (ImageContent (external "https://x.test/a.png")) placeholders.

End Sample.

(** ** Further notions: what the walks count, reach and log *)



(** A heading record [k] levels further down. *)
Definition deeper (k : nat) (heading : MarkdownHeading) : MarkdownHeading :=
  mkHeading (k + depth heading) (text heading) (slug heading).

(** Depths that read as a tree: no record above the level [base], and
    each record at most one level below the one before it ([prev] for the
    first). *)
Fixpoint nestedFrom (base prev : nat) (found : list MarkdownHeading) : bool :=
  match found with
  | [] => true
  | heading :: others =>
      Nat.leb base (depth heading) && Nat.leb (depth heading) (S prev) &&
      nestedFrom base (depth heading) others
  end.

(** The same, with a first record at the level [base] itself. *)
Definition startsAt (base : nat) (found : list MarkdownHeading) : bool :=
  match found with
  | [] => true
  | heading :: others => Nat.eqb (depth heading) base && nestedFrom base base others
  end.

Definition wellNested (found : list MarkdownHeading) : bool := startsAt 0 found.

(** An outcome of the walk, every record [k] levels further down. *)
Definition deeperAll (k : nat) (outcome : Completion (list MarkdownHeading))
  : Completion (list MarkdownHeading) :=
  match outcome with
  | Return found => Return (map (deeper k) found)
  | Throw e => Throw e
  end.

(** The depth of the last record, [prev] when there is none. *)
Definition lastDepth (prev : nat) (found : list MarkdownHeading) : nat :=
  foldl (fun _ heading => depth heading) prev found.

(** [block.id], [block.type] and [block.has_children], of a block as the
    API serves it and as [listBlocks] yields it. *)
Definition contentType (content : BlockContent) : string :=
  match content with
  | ImageContent _ => "image"
  | VideoContent _ => "video"
  | OtherContent type _ => type
  end.

Definition blockHeader (block : Block) : string * string * bool :=
  match block with
  | ImageBlock id has_children _ => (id, "image", has_children)
  | VideoBlock id has_children _ => (id, "video", has_children)
  | OtherBlock id has_children type _ _ => (id, type, has_children)
  end.

(** The headers of the full blocks a listing delivers, in order. *)
Fixpoint fullHeaders (items : Listing) : list (string * string * bool) :=
  match items with
  | EndOfList | ListingFailed _ => []
  | NextBlock (PartialBlock _) rest => fullHeaders rest
  | NextBlock (FullBlock id has_children content _) rest =>
      (id, contentType content, has_children) :: fullHeaders rest
  end.

(** The first listing failure [listBlocks] meets, depth-first. *)
Fixpoint firstFailure (items : Listing) : option Thrown :=
  match items with
  | EndOfList => None
  | ListingFailed e => Some e
  | NextBlock block rest =>
      match blockFailure block with
      | Some e => Some e
      | None => firstFailure rest
      end
  end
with blockFailure (block : RemoteBlock) : option Thrown :=
  match block with
  | PartialBlock _ => None
  | FullBlock _ has_children _ listed =>
      if has_children then firstFailure listed else None
  end.

(** The images [listBlocks] comes to before that failure (all of them
    when there is none). *)
Fixpoint imagesReached (items : Listing) : list MediaFile :=
  match items with
  | EndOfList | ListingFailed _ => []
  | NextBlock block rest =>
      blockReached block ++
      match blockFailure block with
      | Some _ => []
      | None => imagesReached rest
      end
  end
with blockReached (block : RemoteBlock) : list MediaFile :=
  match block with
  | PartialBlock _ => []
  | FullBlock _ has_children content listed =>
      (if has_children then imagesReached listed else []) ++
      match blockFailure block, content with
      | None, ImageContent image => [image]
      | _, _ => []
      end
  end.

(** A listing with nothing served under the blocks that declare no
    children. *)
Fixpoint prune (items : Listing) : Listing :=
  match items with
  | EndOfList => EndOfList
  | ListingFailed e => ListingFailed e
  | NextBlock block rest => NextBlock (pruneBlock block) (prune rest)
  end
with pruneBlock (block : RemoteBlock) : RemoteBlock :=
  match block with
  | PartialBlock id => PartialBlock id
  | FullBlock id has_children content listed =>
      FullBlock id has_children content (if has_children then prune listed else EndOfList)
  end.

Section Effects.

Variable fileToImageAsset : MediaFile -> Completion ImageAsset.

(** The lines [#fetchImage] logs for a sequence of files: one error per
    file the resolver fails on. *)
Definition fetchFailures (this : Renderer) (files : list MediaFile) : list LogEntry :=
  flat_map (fun file =>
              match fileToImageAsset file with
              | Return _ => []
              | Throw error =>
                  [mkLogEntry LogError (logger this)
                              (fetchFailedMessage (getErrorMessage error))]
              end) files.

(** The store once [#fetchImage] ran on a sequence of files. *)
Definition afterImages (this : Renderer) (files : list MediaFile) (s : Store) : Store :=
  mkStore (imagePaths s ++ resolved fileToImageAsset files)
          (logged s ++ fetchFailures this files)
          (assetCalls s ++ files)
          (captured s).

End Effects.

Section Batch.

Variable notionRehype : list Block -> Completion Node.
Variable rehypeSlug rehypeKatex : Node -> Completion Node.
Variable createTOC : Node -> Node.
Variable rehypeStringify : Node -> string.
Variable Options : Type.

(** The file of a block tree: what the chain gives for it, or what its
    first failing stage throws. *)
Definition ownFile (plugins : list (RehypePlugin Options * Options)) (blocks : list Block)
  : Completion VFile :=
  tree ← markupOf notionRehype rehypeSlug rehypeKatex blocks;
  _ ← extractTocHeadings (createTOC tree);
  fileOf rehypeStringify Options plugins tree.

(** Headings that are those of one of the block trees of a batch of
    calls, or what the captured variable held before the batch. *)
Definition fromBatch (initial : Slot) (batch : list (list Block)) (found : Slot) : Prop :=
  found = initial \/
  exists blocks,
    blocks ∈ batch /\
    ownHeadings notionRehype rehypeSlug rehypeKatex createTOC blocks = Return found.

(** A call made on [blocks], wherever it stands: not started, its chain
    run on its own blocks, or settled with the file of its own blocks and
    headings from the batch (or with what its own chain threw). *)
Definition callOn (plugins : list (RehypePlugin Options * Options))
           (initial : Slot) (batch : list (list Block))
           (blocks : list Block) (call : Call) : Prop :=
  match call with
  | Called given => given = blocks
  | Transformed outcome => outcome = ownFile plugins blocks
  | Settled (Return output) =>
      ownFile plugins blocks = Return (vFile output) /\
      fromBatch initial batch (headings output)
  | Settled (Throw e) => ownFile plugins blocks = Throw e
  end.

End Batch.

Module Cases.

(** A page whose second listing fails after one image was delivered. *)
Definition rateLimited : Thrown := ErrorObject "APIResponseError" "rate limited".

Definition failingListing : Listing :=
  NextBlock (FullBlock "f1" false (ImageContent (Sample.external "https://x.test/a.png"))
               EndOfList)
 (NextBlock (FullBlock "f2" true (OtherContent "toggle" "more")
               (NextBlock (FullBlock "f3" false
                             (ImageContent (Sample.uploaded "https://s3.test/b.png"))
                             EndOfList)
               (ListingFailed rateLimited)))
 (NextBlock (FullBlock "f4" false (ImageContent (Sample.external "https://x.test/c.png"))
               EndOfList)
  EndOfList)).

(** A leaf block under which the API would fail, were it asked. *)
Definition leafOverFailure : Listing :=
  NextBlock (FullBlock "l1" false (OtherContent "paragraph" "text")
               (ListingFailed rateLimited))
  EndOfList.

(** A table-of-contents stage that hands over a [div]. *)
Definition divStage (tree : Node) : Node := Element "div" ∅ [].


Definition throwingPlugin (reason : string) (tree : Node) : Completion Node :=
  Throw (ThrownString reason).


End Cases.

(** * Properties *)

(** ** The outline extractor *)

Scheme TocItem_mut := Minimality for TocItem Sort Prop
  with TocList_mut := Minimality for TocList Sort Prop
  with TocItems_mut := Minimality for TocItems Sort Prop.

Combined Scheme Toc_mutind from TocItem_mut, TocList_mut, TocItems_mut.

(** Induction on a markup tree, the children taken as a whole. *)
Lemma Node_induction (P : Node -> Prop) :
  (forall tagName properties children,
      Forall P children -> P (Element tagName properties children)) ->
  (forall value, P (Text value)) ->
  forall node, P node.
Proof.
  intros HElement HText. fix IH 1. intros [tagName properties children | value].
  - apply HElement. induction children as [| child children IHchildren].
    + constructor.
    + constructor; [apply IH | exact IHchildren].
  - apply HText.
Qed.

Lemma listElementToTree_Element tagName properties lis depth :
  listElementToTree (Element tagName properties lis) depth = flatMapItems depth lis.
Proof.
  simpl. induction lis as [| li rest IH]; simpl.
  - reflexivity.
  - rewrite IH. reflexivity.
Qed.

Lemma currentHeading_link depth link text slug :
  TocLink link text slug ->
  currentHeading depth (Some link) = Return (mkHeading depth (Some text) slug).
Proof.
  intros (properties & -> & Hhref). simpl. rewrite Hhref. reflexivity.
Qed.

(** On well-formed items the walk is the pre-order of the outline. *)
Lemma walk_preorder :
  (forall li item, TocItem li item ->
     forall depth, itemHeadings depth li = Return (preorder depth item)) /\
  (forall ol items, TocList ol items ->
     forall depth, listElementToTree ol depth = Return (flat_map (preorder depth) items)) /\
  (forall lis items, TocItems lis items ->
     forall depth, flatMapItems depth lis = Return (flat_map (preorder depth) items)).
Proof.
  apply Toc_mutind.
  - intros properties link text slug Hlink depth. cbn [itemHeadings].
    rewrite (currentHeading_link depth _ _ _ Hlink). reflexivity.
  - intros properties link text slug subList nested Hlink _ IH depth.
    cbn [itemHeadings]. rewrite (currentHeading_link depth _ _ _ Hlink).
    cbn. rewrite IH. reflexivity.
  - intros properties lis items _ IH depth.
    rewrite listElementToTree_Element. apply IH.
  - reflexivity.
  - intros li item lis items _ IHitem _ IHrest depth. cbn [flatMapItems].
    rewrite IHitem. cbn. rewrite IHrest. reflexivity.
Qed.

Lemma extract_nav toc items :
  TocNav toc items -> extractTocHeadings toc = Return (outlineHeadings items).
Proof.
  intros (properties & ol & -> & Hlist). unfold extractTocHeadings. cbn.
  apply walk_preorder. exact Hlist.
Qed.

(** The walk itself raises nothing but the engine's type errors. *)
Lemma currentHeading_throws depth link e :
  currentHeading depth link = Throw e -> exists message, e = TypeError message.
Proof.
  unfold currentHeading, cannotRead.
  destruct link as [[tagName properties [| first rest] | value] |];
    try destruct (properties !! "href");
    intros H; inversion H; eauto.
Qed.

Lemma flatMapItems_throws depth lis e :
  Forall (fun li => forall e', itemHeadings depth li = Throw e' ->
                               exists message, e' = TypeError message) lis ->
  flatMapItems depth lis = Throw e -> exists message, e = TypeError message.
Proof.
  induction 1 as [| li rest Hli _ IHrest]; [discriminate |].
  cbn [flatMapItems].
  destruct (itemHeadings depth li) as [hs | e'] eqn:Hitem; cbn.
  - destruct (flatMapItems depth rest) as [others | e''] eqn:Hrest; cbn; [discriminate |].
    intros H; inversion H; subst. apply IHrest. reflexivity.
  - intros H; inversion H; subst. apply Hli. reflexivity.
Qed.

Lemma walk_throws node :
  (forall depth e, listElementToTree node depth = Throw e ->
                   exists message, e = TypeError message) /\
  (forall depth e, itemHeadings depth node = Throw e ->
                   exists message, e = TypeError message).
Proof.
  induction node as [tagName properties kids IH | value] using Node_induction.
  - split; intros depth e.
    + rewrite listElementToTree_Element. apply flatMapItems_throws.
      eapply Forall_impl; [exact IH |]. intros li [_ Hli] e'. apply Hli.
    + destruct kids as [| link [| subList more]]; cbn [itemHeadings].
      * intros H; inversion H. unfold cannotRead. eauto.
      * destruct (currentHeading depth (Some link)) eqn:Hh; cbn; [discriminate |].
        intros H; inversion H; subst. eapply currentHeading_throws; eauto.
      * destruct (currentHeading depth (Some link)) eqn:Hh; cbn.
        -- destruct (listElementToTree subList (S depth)) eqn:Hsub; cbn; [discriminate |].
           intros H; inversion H; subst.
           inversion IH as [| ? ? _ Hrest]; inversion Hrest as [| ? ? [Hsl _] _]; subst.
           eapply Hsl; eauto.
        -- intros H; inversion H; subst. eapply currentHeading_throws; eauto.
  - split; intros depth e H; inversion H; unfold cannotRead; eauto.
Qed.

(** The tree built for an outline has the expected shape. *)
Lemma tocItemOf_shape : forall item, TocItem (tocItemOf item) item.
Proof.
  fix IH 1. intros [text slug nested].
  assert (Hlink : TocLink (Element "a" {[ "href" := "#" +:+ slug ]} [Text text]) text slug)
    by (eexists; split; [reflexivity | apply lookup_singleton_eq]).
  cbn [tocItemOf]. destruct nested as [| first others].
  - apply TocItem_leaf. exact Hlink.
  - apply TocItem_nested; [exact Hlink |]. apply TocList_ol.
    generalize (first :: others). intros items.
    induction items as [| item items IHitems]; [apply TocItems_nil |].
    apply TocItems_cons; [apply IH | exact IHitems].
Qed.

Lemma tocOf_shape items : TocNav (tocOf items) items.
Proof.
  exists ∅, (Element "ol" ∅ (map tocItemOf items)). split; [reflexivity |].
  apply TocList_ol. induction items as [| item items IH]; [apply TocItems_nil |].
  apply TocItems_cons; [apply tocItemOf_shape | exact IH].
Qed.

Lemma sample_toc1221_shape : TocNav Sample.toc1221 Sample.outline1221.
Proof. apply tocOf_shape. Qed.

(** C4, as the code has it.  [extractTocHeadings] raises its own error,
    [Error("Expected nav, got ...")], exactly when the tag name of the root
    is not [nav].  Under a [nav] root it walks the first child and ignores
    the others, and raises at most a type error of the engine; on every tree
    of the expected shape (a [nav] wrapping exactly one list of link items)
    it returns the heading records. *)
Theorem extractTocHeadings_structure_error (toc : Node) :
  (tagName_of toc <> Some "nav" ->
   extractTocHeadings toc =
     Throw (ErrorObject "Error" ("Expected nav, got " +:+ template (tagName_of toc)))) /\
  (tagName_of toc = Some "nav" ->
   (forall e, extractTocHeadings toc = Throw e -> exists message, e = TypeError message) /\
   (forall properties ol others,
       toc = Element "nav" properties (ol :: others) ->
       extractTocHeadings toc = listElementToTree ol 0)) /\
  (forall items, TocNav toc items -> exists found, extractTocHeadings toc = Return found).
Proof.
  unfold extractTocHeadings. split; [| split].
  - intros Hne. destruct (decide (tagName_of toc = Some "nav")); [contradiction | reflexivity].
  - intros Heq. destruct (decide (tagName_of toc = Some "nav")) as [_ | Hne];
      [| contradiction]. split.
    + intros e.
      destruct toc as [tagName properties [| ol rest] | value]; try discriminate.
      * intros H; inversion H. unfold cannotRead. eauto.
      * apply (proj1 (walk_throws ol)).
    + intros properties ol others ->. reflexivity.
  - intros items Hnav. exists (outlineHeadings items). apply (extract_nav toc items Hnav).
Qed.

Lemma extractTocHeadings_structure_error_witness :
  (tagName_of (Element "div" ∅ []) <> Some "nav" /\
   extractTocHeadings (Element "div" ∅ []) =
     Throw (ErrorObject "Error" "Expected nav, got div")) /\
  (TocNav Sample.toc1221 Sample.outline1221 /\
   exists found, extractTocHeadings Sample.toc1221 = Return found).
Proof.
  split.
  - assert (H : tagName_of (Element "div" ∅ []) <> Some "nav") by discriminate.
    split; [exact H |].
    exact (proj1 (extractTocHeadings_structure_error (Element "div" ∅ [])) H).
  - split; [exact sample_toc1221_shape |].
    exact (proj2 (proj2 (extractTocHeadings_structure_error Sample.toc1221))
                 Sample.outline1221 sample_toc1221_shape).
Defined.

(** C4 as stated fails: a [nav] that wraps two lists is not a root wrapping
    exactly one top-level list, and yet the extractor returns (the records
    of the first list, here none) without raising. *)
Lemma extractTocHeadings_accepts_two_lists :
  ~ NavWithOneList Sample.navTwoLists /\
  extractTocHeadings Sample.navTwoLists = Return [].
Proof.
  split; [| reflexivity].
  intros (properties & listProperties & lis & H). discriminate H.
Qed.

(** C6.  On every navigation tree of the expected shape the extractor
    returns the pre-order of the outline: one record per item, with the
    depth of its list (0 at the top, one more per nesting), the text of its
    link and the target of the link without its leading [#], each item
    followed at once by the records of its nested list. *)
Theorem extractTocHeadings_preorder (toc : Node) (items : list Outline) :
  TocNav toc items ->
  extractTocHeadings toc = Return (outlineHeadings items).
Proof.
  apply extract_nav.
Qed.

(** Headings of levels 1, 2, 2, 1 give the depths 0, 1, 1, 0. *)
Lemma extractTocHeadings_preorder_witness :
  TocNav Sample.toc1221 Sample.outline1221 /\
  extractTocHeadings Sample.toc1221 =
    Return [ mkHeading 0 (Some "Overview") "overview";
             mkHeading 1 (Some "Install") "install";
             mkHeading 1 (Some "Usage") "usage";
             mkHeading 0 (Some "Details") "details" ].
Proof.
  split; [exact sample_toc1221_shape |].
  exact (extractTocHeadings_preorder Sample.toc1221 Sample.outline1221 sample_toc1221_shape).
Defined.

(** ** The block materializer and the page renderer *)

Scheme RemoteBlock_mut := Induction for RemoteBlock Sort Prop
  with Listing_mut := Induction for Listing Sort Prop.

Combined Scheme Remote_mutind from RemoteBlock_mut, Listing_mut.

Lemma bind_run {S A B : Type} (m : St S A) (f : A -> St S B) (s : S) :
  (m ≫= f) s = match m s with
               | (Return a, s') => f a s'
               | (Throw e, s') => (Throw e, s')
               end.
Proof. reflexivity. Qed.

(** Unfolding the code under its own names (the sections below
    abbreviate the definitions applied to the collaborators). *)
Ltac unfold_fetchImage := unfold fetchImage, urlFor, resolved.
Ltac unfold_resolved := unfold resolved in *.
Ltac unfold_urlFor := unfold urlFor.
Ltac unfold_render := unfold render.
Ltac unfold_constructor := unfold NotionPageRenderer, fork.
Ltac step_runPlugins := cbn [runPlugins].
Ltac unfold_process := unfold processor_process, markupOf.
Ltac open_chain := cbn [processorWithToc use baseProcessor transformers app].
Ltac unfold_fileOf := unfold fileOf.
Ltac unfold_calls := unfold buildProcessor, resume.
Ltac unfold_buildProcessor := unfold buildProcessor.
Ltac unfold_ownHeadings := unfold ownHeadings.
Ltac first_call := cbn [runCalls lookup list_lookup resume].
Ltac step_calls := cbn [insert list_insert lookup list_lookup runCalls resume].

Section Renderer.

Variable fileToImageAsset : MediaFile -> Completion ImageAsset.
Variable fileToUrl : MediaFile -> string.
Variable title_safeParse : string -> SafeParse.

Local Abbreviation fetchImage := (fetchImage fileToImageAsset fileToUrl).
Local Abbreviation render := (render fileToImageAsset fileToUrl).
Local Abbreviation resolved := (resolved fileToImageAsset).
Local Abbreviation urlFor := (urlFor fileToImageAsset fileToUrl).
Local Abbreviation NotionPageRenderer := (NotionPageRenderer title_safeParse).
Local Abbreviation Alive := (Alive fileToImageAsset fileToUrl title_safeParse).

Lemma resolved_app files files' :
  resolved (files ++ files') = (resolved files ++ resolved files')%list.
Proof. apply flat_map_app. Qed.

(** One call of [#fetchImage]: it always returns, asks the resolver once,
    and pushes the local reference when there is one. *)
Lemma fetchImage_run this file s :
  exists s',
    fetchImage this file s = (Return (urlFor file), s') /\
    assetCalls s' = (assetCalls s ++ [file])%list /\
    imagePaths s' = (imagePaths s ++ resolved [file])%list.
Proof.
  unfold_fetchImage.
  cbn [flat_map]. destruct (fileToImageAsset file) as [asset | e];
    eexists; (split; [reflexivity |]); cbn; rewrite ?app_nil_r; auto.
Qed.

(** A listing that completes is materialized to its block tree; the
    resolver is asked for its images, in order, and nothing else; the
    local references obtained are pushed, in that order. *)
Lemma materialize_completes this :
  (forall block, blockCompletes block = true -> forall s, exists s',
      yieldOf (fetchImage this) block s = (Return (blockWith urlFor block), s') /\
      assetCalls s' = (assetCalls s ++ blockImages block)%list /\
      imagePaths s' = (imagePaths s ++ resolved (blockImages block))%list) /\
  (forall items, completes items = true -> forall s, exists s',
      listBlocks (fetchImage this) items s = (Return (blocksWith urlFor items), s') /\
      assetCalls s' = (assetCalls s ++ imagesOf items)%list /\
      imagePaths s' = (imagePaths s ++ resolved (imagesOf items))%list).
Proof.
  apply Remote_mutind.
  - intros id _ s. exists s. cbn. rewrite !app_nil_r. auto.
  - intros id has_children content listed IH Hcompletes s.
    cbn [yieldOf blockCompletes blockWith blockImages] in *. rewrite bind_run.
    assert (Hchildren : exists s1,
               (if has_children
                then children ← listBlocks (fetchImage this) listed; mret (Some children)
                else mret None) s
               = (Return (if has_children then Some (blocksWith urlFor listed) else None), s1) /\
               assetCalls s1 = (assetCalls s ++ if has_children then imagesOf listed else [])%list /\
               imagePaths s1 =
                 (imagePaths s ++ resolved (if has_children then imagesOf listed else []))%list).
    { destruct has_children.
      - destruct (IH Hcompletes s) as (s1 & Hrun & Hcalls & Hpaths).
        exists s1. rewrite bind_run, Hrun. auto.
      - exists s. cbn. rewrite !app_nil_r. auto. }
    destruct Hchildren as (s1 & -> & Hcalls1 & Hpaths1).
    destruct content as [image | video | type payload].
    + rewrite bind_run.
      destruct (fetchImage_run this image s1) as (s2 & -> & Hcalls2 & Hpaths2).
      exists s2. split; [reflexivity |].
      rewrite Hcalls2, Hpaths2, Hcalls1, Hpaths1, resolved_app, <- !app_assoc. auto.
    + exists s1. split; [reflexivity |].
      rewrite Hcalls1, Hpaths1, !app_nil_r. auto.
    + exists s1. split; [reflexivity |].
      rewrite Hcalls1, Hpaths1, !app_nil_r. auto.
  - intros _ s. exists s. cbn. rewrite !app_nil_r. auto.
  - intros e Hcompletes. discriminate Hcompletes.
  - intros block IHblock rest IHrest Hcompletes s.
    cbn [completes] in Hcompletes. apply andb_prop in Hcompletes as [Hblock Hrest].
    cbn [listBlocks blocksWith imagesOf]. rewrite bind_run.
    destruct (IHblock Hblock s) as (s1 & -> & Hcalls1 & Hpaths1).
    rewrite bind_run.
    destruct (IHrest Hrest s1) as (s2 & -> & Hcalls2 & Hpaths2).
    exists s2. split; [reflexivity |].
    rewrite Hcalls2, Hpaths2, Hcalls1, Hpaths1, resolved_app, <- !app_assoc. auto.
Qed.

(** A listing that does not complete makes [listBlocks] throw; what was
    pushed before the failure stays. *)
Lemma materialize_fails this :
  (forall block, blockCompletes block = false -> forall s, exists e s' files,
      yieldOf (fetchImage this) block s = (Throw e, s') /\
      files `prefix_of` blockImages block /\
      assetCalls s' = (assetCalls s ++ files)%list /\
      imagePaths s' = (imagePaths s ++ resolved files)%list) /\
  (forall items, completes items = false -> forall s, exists e s' files,
      listBlocks (fetchImage this) items s = (Throw e, s') /\
      files `prefix_of` imagesOf items /\
      assetCalls s' = (assetCalls s ++ files)%list /\
      imagePaths s' = (imagePaths s ++ resolved files)%list).
Proof.
  apply Remote_mutind.
  - intros id Hfails. discriminate Hfails.
  - intros id has_children content listed IH Hfails s.
    cbn [yieldOf blockCompletes blockImages] in *.
    destruct has_children; [| discriminate Hfails].
    destruct (IH Hfails s) as (e & s' & files & Hrun & Hprefix & Hcalls & Hpaths).
    exists e, s', files. rewrite !bind_run, Hrun.
    split; [reflexivity |]. split; [| auto]. by apply prefix_app_r.
  - intros Hfails. discriminate Hfails.
  - intros e _ s. exists e, s, []. cbn. rewrite !app_nil_r.
    split; [reflexivity |]. split; [apply prefix_nil | auto].
  - intros block IHblock rest IHrest Hfails s.
    cbn [completes listBlocks imagesOf] in *. rewrite bind_run.
    destruct (blockCompletes block) eqn:Hblock.
    + destruct (proj1 (materialize_completes this) block Hblock s)
        as (s1 & -> & Hcalls1 & Hpaths1).
      destruct (IHrest Hfails s1) as (e & s' & files & Hrun & Hprefix & Hcalls & Hpaths).
      exists e, s', (blockImages block ++ files)%list. rewrite bind_run, Hrun.
      split; [reflexivity |]. split; [by apply prefix_app |].
      rewrite Hcalls, Hpaths, Hcalls1, Hpaths1, resolved_app, <- !app_assoc. auto.
    + destruct (IHblock eq_refl s) as (e & s' & files & -> & Hprefix & Hcalls & Hpaths).
      exists e, s', files. split; [reflexivity |]. split; [| auto]. by apply prefix_app_r.
Qed.

(** Every run of [listBlocks]: the resolver is asked for an initial part
    of the images of the listing, the whole of it when the call returns,
    and the local references obtained are appended to [#imagePaths]. *)
Lemma listBlocks_run this items s :
  exists outcome s' files,
    listBlocks (fetchImage this) items s = (outcome, s') /\
    files `prefix_of` imagesOf items /\
    assetCalls s' = (assetCalls s ++ files)%list /\
    imagePaths s' = (imagePaths s ++ resolved files)%list /\
    (if completes items
     then outcome = Return (blocksWith urlFor items) /\ files = imagesOf items
     else exists e, outcome = Throw e).
Proof.
  destruct (completes items) eqn:Hcompletes.
  - destruct (proj2 (materialize_completes this) items Hcompletes s)
      as (s' & Hrun & Hcalls & Hpaths).
    exists (Return (blocksWith urlFor items)), s', (imagesOf items). auto 10.
  - destruct (proj2 (materialize_fails this) items Hcompletes s)
      as (e & s' & files & Hrun & Hprefix & Hcalls & Hpaths).
    exists (Throw e), s', files. eauto 10.
Qed.

Lemma mediaFree_no_images :
  (forall block, blockMediaFree block = true -> blockImages block = []) /\
  (forall items, mediaFree items = true -> imagesOf items = []).
Proof.
  apply Remote_mutind; cbn; try reflexivity.
  - intros id has_children content listed IH H.
    apply andb_prop in H as [Hcontent Hlisted].
    destruct content; try discriminate Hcontent.
    destruct has_children; [rewrite (IH Hlisted) |]; reflexivity.
  - intros block IHblock rest IHrest H.
    apply andb_prop in H as [Hblock Hrest].
    rewrite (IHblock Hblock), (IHrest Hrest). reflexivity.
Qed.

(** The materializer leaves the variable of the pipeline alone. *)
Lemma fetchImage_captured this file s :
  captured (snd (fetchImage this file s)) = captured s.
Proof.
  unfold_fetchImage. destruct (fileToImageAsset file); reflexivity.
Qed.

Lemma materialize_captured this :
  (forall block s, captured (snd (yieldOf (fetchImage this) block s)) = captured s) /\
  (forall items s, captured (snd (listBlocks (fetchImage this) items s)) = captured s).
Proof.
  apply Remote_mutind.
  - reflexivity.
  - intros id has_children content listed IH s. cbn [yieldOf]. rewrite bind_run.
    assert (Hchildren : forall outcome s1,
               (if has_children
                then children ← listBlocks (fetchImage this) listed; mret (Some children)
                else mret None) s = (outcome, s1) -> captured s1 = captured s).
    { intros outcome s1. destruct has_children.
      - rewrite bind_run. specialize (IH s).
        destruct (listBlocks (fetchImage this) listed s) as [[children | e] s2];
          intros H; inversion H; subst; exact IH.
      - intros H; inversion H. reflexivity. }
    destruct ((if has_children
               then children ← listBlocks (fetchImage this) listed; mret (Some children)
               else mret None) s) as [[children | e] s1] eqn:Hrun;
      pose proof (Hchildren _ _ eq_refl) as Hs1; [| exact Hs1].
    destruct content as [image | video | type payload]; [| exact Hs1 | exact Hs1].
    rewrite bind_run. pose proof (fetchImage_captured this image s1) as Himage.
    destruct (fetchImage this image s1) as [[url | e] s2]; cbn in *; congruence.
  - reflexivity.
  - reflexivity.
  - intros block IHblock rest IHrest s. cbn [listBlocks]. rewrite bind_run.
    specialize (IHblock s).
    destruct (yieldOf (fetchImage this) block s) as [[yielded | e] s1]; [| exact IHblock].
    rewrite bind_run. specialize (IHrest s1).
    destruct (listBlocks (fetchImage this) rest s1) as [[others | e] s2];
      cbn in *; congruence.
Qed.

(** [render], case by case. *)
Lemma render_run this process s :
  render this process s =
    match listBlocks (fetchImage this) (client this) (logLine LogDebug this "Rendering" s) with
    | (Return blocks, s1) =>
        match process blocks (captured s1) with
        | (Return output, slot) =>
            (Return (Some (mkEntry (toString (vFile output))
                                   (mkMetadata (headings output) (imagePaths s1)))),
             logLine LogDebug this "Rendered" (withCaptured slot s1))
        | (Throw e, slot) =>
            (Return None,
             logLine LogError this ("Failed to render: " +:+ getErrorMessage e)
                     (withCaptured slot s1))
        end
    | (Throw e, s1) =>
        (Return None,
         logLine LogError this ("Failed to render: " +:+ getErrorMessage e) s1)
    end.
Proof.
  unfold_render. rewrite bind_run. cbn [log]. unfold try_catch.
  rewrite bind_run. fold (logLine LogDebug this "Rendering" s).
  destruct (listBlocks (fetchImage this) (client this) (logLine LogDebug this "Rendering" s))
    as [[blocks | e] s1]; [| reflexivity].
  rewrite bind_run. unfold inPipeline.
  destruct (process blocks (captured s1)) as [[output | e] slot]; reflexivity.
Qed.

(** What a call of [render] does to the store, whatever its outcome. *)
Lemma render_store this process s result s' :
  render this process s = (result, s') ->
  exists files,
    files `prefix_of` imagesOf (client this) /\
    assetCalls s' = (assetCalls s ++ files)%list /\
    imagePaths s' = (imagePaths s ++ resolved files)%list /\
    (forall entry, result = Return (Some entry) ->
       files = imagesOf (client this) /\
       md_imagePaths (metadata entry) = imagePaths s').
Proof.
  rewrite render_run.
  destruct (listBlocks_run this (client this) (logLine LogDebug this "Rendering" s))
    as (outcome & s1 & files & -> & Hprefix & Hcalls & Hpaths & Hcase).
  cbn in Hcalls, Hpaths.
  destruct (completes (client this)).
  - destruct Hcase as [-> ->].
    destruct (process (blocksWith urlFor (client this)) (captured s1)) as [[output | e] slot];
      intros H; inversion H; subst; clear H; exists (imagesOf (client this)); cbn;
      (split; [done |]); (split; [done |]); (split; [done |]).
    + intros rendered Hrendered. inversion Hrendered; subst. auto.
    + intros rendered Hrendered. discriminate Hrendered.
  - destruct Hcase as [e ->]. intros H; inversion H; subst; clear H.
    exists files. cbn. do 3 (split; [done |]). intros rendered Hrendered.
    discriminate Hrendered.
Qed.

(** The constructor always returns, with no path held and the page
    context as the label of its logger. *)
Lemma NotionPageRenderer_run served page parentLogger s :
  exists s',
    NotionPageRenderer served page parentLogger s =
      (Return (mkRenderer served page (pageLabel title_safeParse page)), s') /\
    imagePaths s' = [].
Proof.
  unfold_constructor.
  destruct (title_safeParse (properties_Name page)); eexists; split; reflexivity.
Qed.

(** An instance whose images give no local reference never holds one. *)
Lemma Alive_no_paths this s :
  (forall files, files `prefix_of` imagesOf (client this) -> resolved files = []) ->
  Alive this s -> imagePaths s = [].
Proof.
  intros Hnone. induction 1 as [parentLogger s s' Hnew | process s result s' _ IH Hrender
                               | s s' _ IH Hsame].
  - destruct (NotionPageRenderer_run (client this) (page this) parentLogger s)
      as (s'' & Hrun & Hpaths).
    rewrite Hrun in Hnew. inversion Hnew; subst. exact Hpaths.
  - destruct (render_store _ _ _ _ _ Hrender) as (files & Hprefix & _ & Hpaths & _).
    rewrite Hpaths, IH, (Hnone files Hprefix). reflexivity.
  - rewrite Hsame. exact IH.
Qed.

Lemma resolved_all_fail files :
  (forall file, exists e, fileToImageAsset file = Throw e) -> resolved files = [].
Proof.
  intros Hfail. induction files as [| file files IH]; [reflexivity |].
  unfold_resolved. cbn [flat_map].
  destruct (Hfail file) as [e ->]. exact IH.
Qed.

(** The block tree depends on the urls of its images only. *)
Lemma blocksWith_ext (urlOf urlOf' : MediaFile -> string) :
  (forall file, urlOf file = urlOf' file) ->
  (forall block, blockWith urlOf block = blockWith urlOf' block) /\
  (forall items, blocksWith urlOf items = blocksWith urlOf' items).
Proof.
  intros Hext. apply Remote_mutind; cbn; try reflexivity.
  - intros id has_children content listed IH.
    destruct content; [rewrite Hext | | rewrite IH]; reflexivity.
  - intros block IHblock rest IHrest. rewrite IHblock, IHrest. reflexivity.
Qed.

(** Placeholders are skipped: a listing of placeholders yields nothing
    and touches nothing. *)
Lemma listBlocks_placeholders this items :
  allPlaceholders items = true ->
  forall s, listBlocks (fetchImage this) items s = (Return [], s).
Proof.
  induction items as [| | | e | block _ rest IH] using Listing_mut
    with (P := fun _ => True); try exact I.
  - reflexivity.
  - discriminate.
  - destruct block as [id | id has_children content listed]; [| discriminate].
    cbn [allPlaceholders]. intros Hrest s.
    cbn [listBlocks yieldOf]. rewrite bind_run. unfold mret at 1, St_ret.
    rewrite bind_run, (IH Hrest). reflexivity.
Qed.

(** C2, as the code has it.  When a render succeeds, the resolver was
    asked for the images of the page in depth-first order (siblings in
    the order listed, the images under a block before the image of the
    block itself), and the [imagePaths] returned is what the instance
    held before the call followed by the local references of the
    resolutions that succeeded, in that order, with no entry for a failed
    one.  On an instance that holds no path yet, such as a new one, it is
    exactly those references. *)
Theorem render_imagePaths_in_order this process s entry s' :
  render this process s = (Return (Some entry), s') ->
  assetCalls s' = (assetCalls s ++ imagesOf (client this))%list /\
  md_imagePaths (metadata entry) =
    (imagePaths s ++ resolved (imagesOf (client this)))%list /\
  (imagePaths s = [] ->
   md_imagePaths (metadata entry) = resolved (imagesOf (client this))).
Proof.
  intros Hrender.
  destruct (render_store _ _ _ _ _ Hrender) as (files & _ & Hcalls & Hpaths & Hentry).
  destruct (Hentry entry eq_refl) as [-> Hmd].
  rewrite Hmd, Hpaths. split; [exact Hcalls |]. split; [reflexivity |].
  intros ->. reflexivity.
Qed.

(** C3.  [#imagePaths] only grows: a call of [render] leaves what the
    instance held as an initial part of what it holds, and of two
    successful calls on one instance the second returns the [imagePaths]
    of the first followed by the references it resolved itself. *)
Theorem render_imagePaths_accumulate this process1 process2 s entry1 s1 s2 entry2 s3 :
  render this process1 s = (Return (Some entry1), s1) ->
  imagePaths s2 = imagePaths s1 ->
  render this process2 s2 = (Return (Some entry2), s3) ->
  (imagePaths s `prefix_of` imagePaths s1 /\ imagePaths s2 `prefix_of` imagePaths s3) /\
  md_imagePaths (metadata entry1) `prefix_of` md_imagePaths (metadata entry2) /\
  md_imagePaths (metadata entry2) =
    (md_imagePaths (metadata entry1) ++ resolved (imagesOf (client this)))%list.
Proof.
  intros Hfirst Hbetween Hsecond.
  destruct (render_store _ _ _ _ _ Hfirst) as (files1 & _ & _ & Hpaths1 & Hentry1).
  destruct (render_store _ _ _ _ _ Hsecond) as (files2 & _ & _ & Hpaths2 & Hentry2).
  destruct (Hentry1 entry1 eq_refl) as [_ ->].
  destruct (Hentry2 entry2 eq_refl) as [-> ->].
  rewrite Hpaths2, Hbetween. split; [split |]; [| | split; [| reflexivity]].
  - rewrite Hpaths1. by apply prefix_app_r.
  - by apply prefix_app_r.
  - by apply prefix_app_r.
Qed.

(** C5.  With a resolver that fails on every file, an instance never
    holds a path; a listing that completes is materialized to its block
    tree with every image block carrying [fileToUrl] of its source file
    object, and when the pipeline accepts that tree the render succeeds
    with an empty [imagePaths]. *)
Theorem render_falls_back this process s output slot :
  (forall file, exists e, fileToImageAsset file = Throw e) ->
  Alive this s ->
  completes (client this) = true ->
  process (blocksWith fileToUrl (client this)) (captured s) = (Return output, slot) ->
  imagePaths s = [] /\
  (exists s1,
      listBlocks (fetchImage this) (client this) s =
        (Return (blocksWith fileToUrl (client this)), s1) /\
      imagePaths s1 = []) /\
  (exists s',
      render this process s =
        (Return (Some (mkEntry (toString (vFile output))
                               (mkMetadata (headings output) []))), s')).
Proof.
  intros Hfail Halive Hcompletes Hprocess.
  assert (Hurl : forall file, urlFor file = fileToUrl file).
  { intros file. unfold_urlFor. destruct (Hfail file) as [e ->]. reflexivity. }
  assert (Hblocks : blocksWith urlFor (client this) = blocksWith fileToUrl (client this))
    by (apply blocksWith_ext; exact Hurl).
  assert (Hempty : imagePaths s = []).
  { apply (Alive_no_paths this s); [| exact Halive].
    intros files _. apply resolved_all_fail, Hfail. }
  split; [exact Hempty |]. split.
  - destruct (proj2 (materialize_completes this) _ Hcompletes s) as (s1 & Hrun & _ & Hpaths).
    exists s1. rewrite <- Hblocks. split; [exact Hrun |].
    rewrite Hpaths, Hempty, resolved_all_fail; [reflexivity | exact Hfail].
  - rewrite render_run.
    pose proof (proj2 (materialize_captured this) (client this)
                      (logLine LogDebug this "Rendering" s)) as Hcaptured.
    destruct (proj2 (materialize_completes this) _ Hcompletes
                    (logLine LogDebug this "Rendering" s)) as (s1 & Hrun & _ & Hpaths).
    rewrite Hrun in Hcaptured |- *. cbn in Hcaptured.
    rewrite Hblocks, Hcaptured, Hprocess. eexists. repeat f_equal.
    rewrite Hpaths. cbn. rewrite Hempty, resolved_all_fail; [reflexivity | exact Hfail].
Qed.

(** C7.  A video block is yielded with the payload
    [{type, [type]: url, caption}] built from its own fields, the url
    being [external.url] under the tag [external] and [file.url]
    otherwise, and the store is left as materializing the blocks listed
    under it leaves it (untouched when it declares no children): the
    resolver is not asked for the video.  An image block, on the same
    store, has the resolver asked for its file once more and carries the
    url that call gives. *)
Theorem video_referenced_not_resolved this id (has_children : bool) file listed s :
  exists (outcome : Completion (option (list Block))) (s1 : Store),
    (if has_children
     then children ← listBlocks (fetchImage this) listed; mret (Some children)
     else mret None) s = (outcome, s1) /\
    (if has_children then True else s1 = s) /\
    yieldOf (fetchImage this) (FullBlock id has_children (VideoContent file) listed) s =
      (match outcome with
       | Return _ =>
           Return (Some (VideoBlock id has_children
                           (mkMediaReference
                              (file_type file)
                              match file with
                              | ExternalFile url _ => url
                              | UploadedFile url _ _ => url
                              end
                              (file_caption file))))
       | Throw e => Throw e
       end, s1) /\
    exists s2,
      yieldOf (fetchImage this) (FullBlock id has_children (ImageContent file) listed) s =
        (match outcome with
         | Return _ =>
             Return (Some (ImageBlock id has_children
                             (mkMediaReference (file_type file) (urlFor file)
                                               (file_caption file))))
         | Throw e => Throw e
         end, s2) /\
      match outcome with
      | Return _ => assetCalls s2 = (assetCalls s1 ++ [file])%list
      | Throw _ => s2 = s1
      end.
Proof.
  cbn [yieldOf]. rewrite !bind_run.
  destruct ((if has_children
             then children ← listBlocks (fetchImage this) listed; mret (Some children)
             else mret None) s) as [[children | e] s1] eqn:Hchildren.
  - exists (Return children), s1. split; [reflexivity |]. split.
    { destruct has_children; [exact I |]. inversion Hchildren. reflexivity. }
    split; [destruct file; reflexivity |].
    rewrite bind_run.
    destruct (fetchImage_run this file s1) as (s2 & -> & Hcalls & _).
    exists s2. split; [reflexivity | exact Hcalls].
  - exists (Throw e), s1. split; [reflexivity |]. split.
    { destruct has_children; [exact I |]. inversion Hchildren. }
    split; [reflexivity |]. exists s1. split; reflexivity.
Qed.

(** C8.  [render] never throws.  When materializing the blocks or the
    pipeline throws, it returns the absent value and the last line
    logged is the error, under the label of the instance, which is the
    page context the constructor gives; otherwise it returns the html of
    the file with the headings of the pipeline and the paths of the
    instance. *)
Theorem render_never_raises this process s :
  (exists result s',
      render this process s = (Return result, s') /\
      match listBlocks (fetchImage this) (client this)
                       (logLine LogDebug this "Rendering" s) with
      | (Return blocks, s1) =>
          match process blocks (captured s1) with
          | (Return output, slot) =>
              result = Some (mkEntry (toString (vFile output))
                                     (mkMetadata (headings output) (imagePaths s'))) /\
              s' = logLine LogDebug this "Rendered" (withCaptured slot s1)
          | (Throw e, slot) =>
              result = None /\
              s' = logLine LogError this ("Failed to render: " +:+ getErrorMessage e)
                           (withCaptured slot s1)
          end
      | (Throw e, s1) =>
          result = None /\
          s' = logLine LogError this ("Failed to render: " +:+ getErrorMessage e) s1
      end) /\
  (forall served page parentLogger s0, exists built s0',
      NotionPageRenderer served page parentLogger s0 = (Return built, s0') /\
      logger built = "page " +:+ page_id page +:+ " (Name " +:+
                     match title_safeParse (properties_Name page) with
                     | ParseSuccess data => data
                     | ParseFailure _ => "unknown"
                     end +:+ ")").
Proof.
  split.
  - rewrite render_run.
    destruct (listBlocks (fetchImage this) (client this)
                         (logLine LogDebug this "Rendering" s)) as [[blocks | e] s1].
    + destruct (process blocks (captured s1)) as [[output | e] slot];
        eexists _, _; (split; [reflexivity |]); auto.
    + eexists _, _. split; [reflexivity |]. auto.
  - intros served page parentLogger s0.
    destruct (NotionPageRenderer_run served page parentLogger s0) as (s0' & Hrun & _).
    eexists _, s0'. split; [exact Hrun | reflexivity].
Qed.

(** C9.  On an instance whose block tree has no image and no video
    block, a call of [render] does not ask the resolver anything, and the
    [imagePaths] it holds and returns is empty. *)
Theorem render_media_free this process s result s' :
  mediaFree (client this) = true ->
  Alive this s ->
  render this process s = (result, s') ->
  assetCalls s' = assetCalls s /\
  imagePaths s' = [] /\
  match result with
  | Return (Some entry) => md_imagePaths (metadata entry) = []
  | Return None | Throw _ => True
  end.
Proof.
  intros Hfree Halive Hrender.
  assert (Hnone : forall files, files `prefix_of` imagesOf (client this) -> files = []).
  { intros files. rewrite (proj2 mediaFree_no_images _ Hfree). apply prefix_nil_inv. }
  assert (Hempty : imagePaths s = []).
  { apply (Alive_no_paths this s); [| exact Halive].
    intros files Hprefix. rewrite (Hnone files Hprefix). reflexivity. }
  destruct (render_store _ _ _ _ _ Hrender) as (files & Hprefix & Hcalls & Hpaths & Hentry).
  rewrite (Hnone files Hprefix) in Hcalls, Hpaths. cbn in Hpaths.
  rewrite app_nil_r in Hcalls, Hpaths. rewrite Hempty in Hpaths.
  split; [exact Hcalls |]. split; [exact Hpaths |].
  destruct result as [[entry |] | e]; try exact I.
  destruct (Hentry entry eq_refl) as [_ ->]. exact Hpaths.
Qed.

(** C10, as the code has it.  A block of a kind other than image and
    video that declares children and is served placeholders only is
    yielded with an empty child sequence attached, and the placeholders
    leave no trace: nothing is yielded for them and the store is
    untouched.  An image or video block in the same position is yielded
    with its fresh payload, which has no child sequence. *)
Theorem placeholder_children_empty this id listed s :
  allPlaceholders listed = true ->
  listBlocks (fetchImage this) listed s = (Return [], s) /\
  (forall type payload,
      yieldOf (fetchImage this) (FullBlock id true (OtherContent type payload) listed) s =
        (Return (Some (OtherBlock id true type payload (Some []))), s)) /\
  (forall content, isMedia content = true ->
      exists block s',
        yieldOf (fetchImage this) (FullBlock id true content listed) s =
          (Return (Some block), s') /\
        childrenOf block = None).
Proof.
  intros Hplaceholders.
  pose proof (listBlocks_placeholders this listed Hplaceholders s) as Hrun.
  split; [exact Hrun |]. split.
  - intros type payload. cbn [yieldOf]. rewrite !bind_run, Hrun. reflexivity.
  - intros [image | video | type payload] Hmedia; [| | discriminate Hmedia];
      cbn [yieldOf]; rewrite !bind_run, Hrun; cbn [mret St_ret].
    + rewrite bind_run.
      destruct (fetchImage_run this image s) as (s' & -> & _).
      eexists _, s'. split; reflexivity.
    + eexists _, s. split; reflexivity.
Qed.
End Renderer.

(** ** The pipeline *)

Section Pipeline.

Variable notionRehype : list Block -> Completion Node.
Variable rehypeSlug rehypeKatex : Node -> Completion Node.
Variable createTOC : Node -> Node.
Variable insertTOC : Node -> Node -> Node.
Variable rehypeStringify : Node -> string.
Variable Options : Type.

Local Abbreviation Plugins := (list (RehypePlugin Options * Options)).
Local Abbreviation buildProcessor :=
  (buildProcessor notionRehype rehypeSlug rehypeKatex createTOC insertTOC
                  rehypeStringify Options).
Local Abbreviation resume :=
  (resume notionRehype rehypeSlug rehypeKatex createTOC insertTOC rehypeStringify Options).
Local Abbreviation runCalls :=
  (runCalls notionRehype rehypeSlug rehypeKatex createTOC insertTOC rehypeStringify Options).
Local Abbreviation processorPromise :=
  (processorPromise rehypeSlug rehypeKatex createTOC insertTOC Options).
Local Abbreviation processorWithToc :=
  (processorWithToc rehypeSlug rehypeKatex createTOC insertTOC).
Local Abbreviation processor_process := (processor_process notionRehype rehypeStringify).
Local Abbreviation ownHeadings :=
  (ownHeadings notionRehype rehypeSlug rehypeKatex createTOC).
Local Abbreviation runPlugins := (runPlugins Options).
Local Abbreviation markupOf := (markupOf notionRehype rehypeSlug rehypeKatex).
Local Abbreviation fileOf := (fileOf rehypeStringify Options).
Local Abbreviation pluginStage :=
  (fun '(plugin, options) => stage (plugin options) : Transformer).

Lemma foldl_step_run (chain : list Transformer) (m : St Slot Node) (slot : Slot) :
  foldl (fun (acc : St Slot Node) (t : Transformer) => tree' ← acc; t tree') m chain slot =
    match m slot with
    | (Return tree, slot') => runTransformers chain tree slot'
    | (Throw e, slot') => (Throw e, slot')
    end.
Proof.
  revert m slot. induction chain as [| t chain IH]; intros m slot.
  - cbn. destruct (m slot) as [[tree | e] slot']; reflexivity.
  - cbn [foldl]. rewrite IH, bind_run.
    destruct (m slot) as [[tree | e] slot']; [| reflexivity].
    unfold runTransformers. cbn [foldl]. rewrite IH, bind_run. reflexivity.
Qed.

Lemma runTransformers_cons (t : Transformer) chain tree slot :
  runTransformers (t :: chain) tree slot =
    match t tree slot with
    | (Return tree', slot') => runTransformers chain tree' slot'
    | (Throw e, slot') => (Throw e, slot')
    end.
Proof.
  unfold runTransformers at 1. cbn [foldl]. rewrite foldl_step_run, bind_run. reflexivity.
Qed.

Lemma use_plugins (plugins : Plugins) (processor : Processor) :
  transformers (foldl (fun processor '(plugin, options) =>
                         use processor (stage (plugin options))) processor plugins) =
    (transformers processor ++ map pluginStage plugins)%list.
Proof.
  revert processor. induction plugins as [| [plugin options] plugins IH]; intros processor.
  - cbn. rewrite app_nil_r. reflexivity.
  - cbn [foldl map]. rewrite IH. cbn. rewrite <- app_assoc. reflexivity.
Qed.

Lemma stage_run (transform : Node -> Completion Node) tree (slot : Slot) :
  stage transform tree slot = (transform tree, slot).
Proof. reflexivity. Qed.

(** The stages of the caller leave the captured variable alone. *)
Lemma runTransformers_plugins (plugins : Plugins) tree slot :
  runTransformers (map pluginStage plugins) tree slot = (runPlugins plugins tree, slot).
Proof.
  revert tree. induction plugins as [| [plugin options] plugins IH]; intros tree.
  - reflexivity.
  - cbn [map]. rewrite runTransformers_cons, stage_run. step_runPlugins.
    destruct (plugin options tree) as [tree' | e]; [apply IH | reflexivity].
Qed.

Lemma rehypeToc_run tree (slot : Slot) :
  rehypeToc createTOC insertTOC customizeTOC tree slot =
    match extractTocHeadings (createTOC tree) with
    | Return found => (Return tree, found)
    | Throw e => (Throw e, slot)
    end.
Proof.
  unfold rehypeToc, customizeTOC. rewrite !bind_run. unfold await.
  destruct (extractTocHeadings (createTOC tree)); reflexivity.
Qed.

(** One run of the assembled chain: the captured variable is written
    with the headings of the blocks at the table-of-contents stage, and
    is left as it was when an earlier stage throws. *)
Lemma processor_process_run (plugins : Plugins) processor blocks slot :
  processorPromise (Return plugins) = Return processor ->
  processor_process processor blocks slot =
    match markupOf blocks with
    | Throw e => (Throw e, slot)
    | Return tree =>
        match extractTocHeadings (createTOC tree) with
        | Throw e => (Throw e, slot)
        | Return found => (fileOf plugins tree, found)
        end
    end.
Proof.
  intros Hbuilt. cbn in Hbuilt. inversion Hbuilt as [Hprocessor]; clear Hbuilt.
  unfold_process.
  rewrite bind_run. unfold await at 1.
  destruct (notionRehype blocks) as [tree0 | e]; [| reflexivity].
  rewrite bind_run, use_plugins.
  open_chain.
  rewrite runTransformers_cons, stage_run. cbn [mbind Completion_bind].
  destruct (rehypeSlug tree0) as [tree1 | e]; [| reflexivity].
  rewrite runTransformers_cons, stage_run. cbn [mbind Completion_bind].
  destruct (rehypeKatex tree1) as [tree | e]; [| reflexivity].
  rewrite runTransformers_cons, rehypeToc_run.
  destruct (extractTocHeadings (createTOC tree)) as [found | e]; [| reflexivity].
  rewrite runTransformers_plugins. unfold_fileOf.
  destruct (runPlugins plugins tree) as [tree' | e]; reflexivity.
Qed.

(** Run with nothing in between, the two steps of a call are the
    function [buildProcessor] returns. *)
Lemma resume_twice rehypePlugins blocks slot :
  (let (call, slot1) := resume rehypePlugins (Called blocks) slot in
   resume rehypePlugins call slot1) =
    (Settled (fst (buildProcessor rehypePlugins blocks slot)),
     snd (buildProcessor rehypePlugins blocks slot)).
Proof.
  unfold_calls. rewrite bind_run. unfold await.
  destruct (processorPromise rehypePlugins) as [processor | e]; [| reflexivity].
  rewrite bind_run.
  destruct (processor_process processor blocks slot) as [[file | e] slot1]; reflexivity.
Qed.

Lemma buildProcessor_run (plugins : Plugins) blocks slot :
  buildProcessor (Return plugins) blocks slot =
    match markupOf blocks with
    | Throw e => (Throw e, slot)
    | Return tree =>
        match extractTocHeadings (createTOC tree) with
        | Throw e => (Throw e, slot)
        | Return found =>
            (match fileOf plugins tree with
             | Return file => Return (mkProcessOutput file found)
             | Throw e => Throw e
             end, found)
        end
    end.
Proof.
  unfold_buildProcessor. rewrite bind_run. unfold await.
  destruct (processorPromise (Return plugins)) as [processor | e] eqn:Hbuilt;
    [| discriminate Hbuilt].
  rewrite bind_run, (processor_process_run plugins processor blocks slot Hbuilt).
  destruct (markupOf blocks) as [tree | e]; [| reflexivity].
  destruct (extractTocHeadings (createTOC tree)) as [found | e]; [| reflexivity].
  destruct (fileOf plugins tree) as [file | e]; reflexivity.
Qed.

(** A call that runs alone returns the headings of its own blocks, and
    leaves them in the captured variable. *)
Lemma buildProcessor_alone (plugins : Plugins) blocks slot output slot' :
  buildProcessor (Return plugins) blocks slot = (Return output, slot') ->
  exists tree,
    markupOf blocks = Return tree /\
    extractTocHeadings (createTOC tree) = Return (headings output) /\
    fileOf plugins tree = Return (vFile output) /\
    slot' = headings output.
Proof.
  rewrite buildProcessor_run.
  destruct (markupOf blocks) as [tree | e] eqn:Hmarkup; [| discriminate].
  destruct (extractTocHeadings (createTOC tree)) as [found | e] eqn:Hfound; [| discriminate].
  destruct (fileOf plugins tree) as [file | e] eqn:Hfile; [| discriminate].
  intros H; inversion H; subst. exists tree. auto.
Qed.

(** Calls that do not overlap each return the headings of their own
    blocks. *)
Lemma calls_in_turn (plugins : Plugins) a b slot outputA outputB slotA slotB :
  buildProcessor (Return plugins) a slot = (Return outputA, slotA) ->
  buildProcessor (Return plugins) b slot = (Return outputB, slotB) ->
  runCalls (Return plugins) [0; 0; 1; 1] [Called a; Called b] slot =
    ([Settled (Return outputA); Settled (Return outputB)], headings outputB).
Proof.
  intros HA HB.
  destruct (buildProcessor_alone _ _ _ _ _ HA) as (treeA & HmA & HtA & HfA & _).
  destruct (buildProcessor_alone _ _ _ _ _ HB) as (treeB & HmB & HtB & HfB & _).
  destruct (processorPromise (Return plugins)) as [processor | e] eqn:Hbuilt;
    [| discriminate Hbuilt].
  first_call. rewrite Hbuilt.
  rewrite (processor_process_run plugins processor a slot Hbuilt), HmA, HtA, HfA.
  step_calls. rewrite Hbuilt.
  rewrite (processor_process_run plugins processor b _ Hbuilt), HmB, HtB, HfB.
  cbn. destruct outputA, outputB. reflexivity.
Qed.

(** C1 fails on the code.  The slot the outline is captured in is the
    one variable [headings] of [buildProcessor], shared by every call of
    the function it returns.  Take two calls on one built pipeline, each
    of which returns the headings of its own blocks when it runs alone.
    When the second runs its chain while the first is suspended at
    [await processor.process(...)], the first call returns its own file
    with the headings of the blocks of the second. *)
Theorem shared_slot_leaks (plugins : Plugins) a b slot outputA outputB slotA slotB :
  buildProcessor (Return plugins) a slot = (Return outputA, slotA) ->
  buildProcessor (Return plugins) b slot = (Return outputB, slotB) ->
  ownHeadings a = Return (headings outputA) /\
  ownHeadings b = Return (headings outputB) /\
  runCalls (Return plugins) [0; 1; 0; 1] [Called a; Called b] slot =
    ([Settled (Return (mkProcessOutput (vFile outputA) (headings outputB)));
      Settled (Return outputB)],
     headings outputB).
Proof.
  intros HA HB.
  destruct (buildProcessor_alone _ _ _ _ _ HA) as (treeA & HmA & HtA & HfA & _).
  destruct (buildProcessor_alone _ _ _ _ _ HB) as (treeB & HmB & HtB & HfB & _).
  unfold_ownHeadings. rewrite HmA, HmB. cbn [mbind Completion_bind].
  split; [exact HtA |]. split; [exact HtB |].
  destruct (processorPromise (Return plugins)) as [processor | e] eqn:Hbuilt;
    [| discriminate Hbuilt].
  first_call. rewrite Hbuilt.
  rewrite (processor_process_run plugins processor a slot Hbuilt), HmA, HtA, HfA.
  step_calls.
  rewrite Hbuilt.
  rewrite (processor_process_run plugins processor b _ Hbuilt), HmB, HtB, HfB.
  cbn. destruct outputB. reflexivity.
Qed.
End Pipeline.

(** ** The properties on the sample page *)

Lemma sample_new_renderer :
  NotionPageRenderer Sample.titleSchema Sample.pageListing Sample.thePage "loader"
                     Sample.emptyStore
  = (Return (Sample.renderer Sample.pageListing), Sample.emptyStore).
Proof. reflexivity. Qed.

Lemma shared_slot_leaks_witness :
  Sample.build Sample.docA [] =
    (Return (mkProcessOutput (mkVFile "<h1>Alpha</h1>") [mkHeading 0 (Some "Alpha") "Alpha"]),
     [mkHeading 0 (Some "Alpha") "Alpha"]) /\
  Sample.build Sample.docB [] =
    (Return (mkProcessOutput (mkVFile "<h1>Beta</h1>") [mkHeading 0 (Some "Beta") "Beta"]),
     [mkHeading 0 (Some "Beta") "Beta"]) /\
  runCalls Sample.parse Sample.identityStage Sample.identityStage Sample.tocStage
           (fun _ tree => tree) Sample.stringify unit Sample.noPlugins
           [0; 1; 0; 1] [Called Sample.docA; Called Sample.docB] [] =
    ([Settled (Return (mkProcessOutput (mkVFile "<h1>Alpha</h1>")
                                       [mkHeading 0 (Some "Beta") "Beta"]));
      Settled (Return (mkProcessOutput (mkVFile "<h1>Beta</h1>")
                                       [mkHeading 0 (Some "Beta") "Beta"]))],
     [mkHeading 0 (Some "Beta") "Beta"]).
Proof.
  assert (HA : Sample.build Sample.docA [] =
               (Return (mkProcessOutput (mkVFile "<h1>Alpha</h1>")
                                        [mkHeading 0 (Some "Alpha") "Alpha"]),
                [mkHeading 0 (Some "Alpha") "Alpha"])) by (vm_compute; reflexivity).
  assert (HB : Sample.build Sample.docB [] =
               (Return (mkProcessOutput (mkVFile "<h1>Beta</h1>")
                                        [mkHeading 0 (Some "Beta") "Beta"]),
                [mkHeading 0 (Some "Beta") "Beta"])) by (vm_compute; reflexivity).
  split; [exact HA |]. split; [exact HB |].
  exact (proj2 (proj2 (shared_slot_leaks
                         Sample.parse Sample.identityStage Sample.identityStage
                         Sample.tocStage (fun _ tree => tree) Sample.stringify unit
                         [] Sample.docA Sample.docB [] _ _ _ _ HA HB))).
Defined.

(** C2 as stated fails on a second call: the instance rendered the sample
    page once, and the second render, during which the resolver was asked
    for the two images of the page and gave one local reference, returns
    that reference twice. *)
Lemma render_again_repeats_paths :
  fst (render Sample.resolver file_url (Sample.renderer Sample.pageListing) Sample.build
              Sample.afterFirstRender) =
    Return (Some (mkEntry "<h1>Alpha</h1>"
                    (mkMetadata [mkHeading 0 (Some "Alpha") "Alpha"]
                                ["/_astro/https://x.test/a.png";
                                 "/_astro/https://x.test/a.png"]))) /\
  assetCalls (snd (render Sample.resolver file_url (Sample.renderer Sample.pageListing)
                          Sample.build Sample.afterFirstRender)) =
    (assetCalls Sample.afterFirstRender ++
     [Sample.external "https://x.test/a.png"; Sample.uploaded "https://s3.test/b.png"])%list /\
  resolved Sample.resolver
           [Sample.external "https://x.test/a.png"; Sample.uploaded "https://s3.test/b.png"] =
    ["/_astro/https://x.test/a.png"].
Proof. vm_compute. repeat split; reflexivity. Qed.

Lemma render_imagePaths_in_order_witness :
  exists entry s',
    render Sample.resolver file_url (Sample.renderer Sample.pageListing) Sample.build
           Sample.emptyStore = (Return (Some entry), s') /\
    assetCalls s' =
      [Sample.external "https://x.test/a.png"; Sample.uploaded "https://s3.test/b.png"] /\
    md_imagePaths (metadata entry) = ["/_astro/https://x.test/a.png"].
Proof.
  destruct (render Sample.resolver file_url (Sample.renderer Sample.pageListing)
                   Sample.build Sample.emptyStore) as [[[entry |] | e] s'] eqn:Hrender;
    try (vm_compute in Hrender; discriminate Hrender).
  exists entry, s'. split; [reflexivity |].
  destruct (render_imagePaths_in_order _ _ _ _ _ _ _ Hrender) as (Hcalls & _ & Hpaths).
  split; [exact Hcalls | exact (Hpaths eq_refl)].
Defined.

Lemma render_imagePaths_accumulate_witness :
  exists entry1 entry2 s3,
    render Sample.resolver file_url (Sample.renderer Sample.pageListing) Sample.build
           Sample.emptyStore = (Return (Some entry1), Sample.afterFirstRender) /\
    render Sample.resolver file_url (Sample.renderer Sample.pageListing) Sample.build
           Sample.afterFirstRender = (Return (Some entry2), s3) /\
    md_imagePaths (metadata entry1) `prefix_of` md_imagePaths (metadata entry2).
Proof.
  destruct (render Sample.resolver file_url (Sample.renderer Sample.pageListing)
                   Sample.build Sample.emptyStore) as [[[entry1 |] | e] s1] eqn:Hfirst;
    try (vm_compute in Hfirst; discriminate Hfirst).
  assert (Hs1 : s1 = Sample.afterFirstRender).
  { unfold Sample.afterFirstRender. rewrite Hfirst. reflexivity. }
  subst s1.
  destruct (render Sample.resolver file_url (Sample.renderer Sample.pageListing)
                   Sample.build Sample.afterFirstRender) as [[[entry2 |] | e] s3] eqn:Hsecond;
    try (vm_compute in Hsecond; discriminate Hsecond).
  exists entry1, entry2, s3. split; [reflexivity |]. split; [reflexivity |].
  exact (proj1 (proj2 (render_imagePaths_accumulate _ _ _ _ _ _ _ _ _ _ _
                         Hfirst eq_refl Hsecond))).
Defined.

Lemma sample_new_renderer_failing :
  Alive Sample.failingResolver file_url Sample.titleSchema
        (Sample.renderer Sample.pageListing) Sample.emptyStore.
Proof. apply (Alive_new _ _ _ _ "loader" Sample.emptyStore). reflexivity. Qed.

Lemma render_falls_back_witness :
  (forall file, exists e, Sample.failingResolver file = Throw e) /\
  completes Sample.pageListing = true /\
  exists s',
    render Sample.failingResolver file_url (Sample.renderer Sample.pageListing)
           Sample.build Sample.emptyStore =
      (Return (Some (mkEntry "<h1>Alpha</h1>"
                       (mkMetadata [mkHeading 0 (Some "Alpha") "Alpha"] []))), s').
Proof.
  assert (Hfail : forall file, exists e, Sample.failingResolver file = Throw e)
    by (intros file; eexists; reflexivity).
  split; [exact Hfail |]. split; [reflexivity |].
  exact (proj2 (proj2 (render_falls_back
                         Sample.failingResolver file_url Sample.titleSchema
                         (Sample.renderer Sample.pageListing) Sample.build
                         Sample.emptyStore
                         (mkProcessOutput (mkVFile "<h1>Alpha</h1>")
                                          [mkHeading 0 (Some "Alpha") "Alpha"])
                         [mkHeading 0 (Some "Alpha") "Alpha"]
                         Hfail sample_new_renderer_failing eq_refl eq_refl))).
Defined.

Lemma sample_new_text_renderer :
  Alive Sample.resolver file_url Sample.titleSchema
        (Sample.renderer Sample.textListing) Sample.emptyStore.
Proof. apply (Alive_new _ _ _ _ "loader" Sample.emptyStore). reflexivity. Qed.

Lemma render_media_free_witness :
  mediaFree Sample.textListing = true /\
  exists result s',
    render Sample.resolver file_url (Sample.renderer Sample.textListing) Sample.build
           Sample.emptyStore = (result, s') /\
    assetCalls s' = [] /\
    imagePaths s' = [].
Proof.
  split; [reflexivity |].
  destruct (render Sample.resolver file_url (Sample.renderer Sample.textListing)
                   Sample.build Sample.emptyStore) as [result s'] eqn:Hrender.
  exists result, s'. split; [reflexivity |].
  destruct (render_media_free Sample.resolver file_url Sample.titleSchema
              (Sample.renderer Sample.textListing) Sample.build Sample.emptyStore
              result s' eq_refl sample_new_text_renderer Hrender) as (Hcalls & Hpaths & _).
  split; [exact Hcalls | exact Hpaths].
Defined.

Lemma placeholder_children_empty_witness :
  allPlaceholders Sample.placeholders = true /\
  yieldOf (fetchImage Sample.resolver file_url (Sample.renderer Sample.textListing))
          Sample.toggleOfPlaceholders Sample.emptyStore =
    (Return (Some (OtherBlock "g1" true "toggle" "more" (Some []))), Sample.emptyStore).
Proof.
  split; [reflexivity |].
  exact (proj1 (proj2 (placeholder_children_empty
                         Sample.resolver file_url (Sample.renderer Sample.textListing)
                         "g1" Sample.placeholders Sample.emptyStore eq_refl))
               "toggle" "more").
Defined.

(** C10 as stated fails on an image block: it declares children, is served
    placeholders only, and is yielded with the fresh payload
    [{type, [type]: url, caption}], which has no child sequence. *)
Lemma image_children_dropped :
  allPlaceholders Sample.placeholders = true /\
  fst (yieldOf (fetchImage Sample.resolver file_url (Sample.renderer Sample.textListing))
               Sample.imageOfPlaceholders Sample.emptyStore) =
    Return (Some (ImageBlock "i1" true
                    (mkMediaReference "external" "/_astro/https://x.test/a.png"
                                      ["a caption"]))) /\
  childrenOf (ImageBlock "i1" true
                (mkMediaReference "external" "/_astro/https://x.test/a.png" ["a caption"]))
    = None.
Proof. vm_compute. repeat split; reflexivity. Qed.


(** * Further properties *)

(** ** The outline extractor, on any tree *)


Lemma currentHeading_depth level link heading :
  currentHeading level link = Return heading ->
  depth heading = level.
Proof.
  unfold currentHeading.
  destruct link as [[tagName properties [| first rest] | value] |]; try discriminate.
  destruct (properties !! "href"); [| discriminate].
  intros H; inversion H; reflexivity.
Qed.





Lemma currentHeading_shift k depth link :
  currentHeading (k + depth) link =
    match currentHeading depth link with
    | Return heading => Return (deeper k heading)
    | Throw e => Throw e
    end.
Proof.
  unfold currentHeading.
  destruct link as [[tagName properties [| first rest] | value] |]; try reflexivity.
  destruct (properties !! "href"); reflexivity.
Qed.

Lemma flatMapItems_shift k depth lis :
  Forall (fun li => itemHeadings (k + depth) li = deeperAll k (itemHeadings depth li)) lis ->
  flatMapItems (k + depth) lis = deeperAll k (flatMapItems depth lis).
Proof.
  induction 1 as [| li rest Hli _ IH]; [reflexivity |].
  cbn [flatMapItems]. rewrite Hli, IH.
  destruct (itemHeadings depth li) as [chunk | e]; [| reflexivity]. cbn.
  destruct (flatMapItems depth rest) as [others | e]; [| reflexivity]. cbn.
  rewrite map_app. reflexivity.
Qed.

Lemma walk_shift node k :
  (forall depth, listElementToTree node (k + depth) =
                 deeperAll k (listElementToTree node depth)) /\
  (forall depth, itemHeadings (k + depth) node = deeperAll k (itemHeadings depth node)).
Proof.
  induction node as [tagName properties kids IH | value] using Node_induction.
  - split; intros depth.
    + rewrite !listElementToTree_Element. apply flatMapItems_shift.
      eapply Forall_impl; [exact IH |]. intros li [_ Hli]. apply Hli.
    + destruct kids as [| link [| subList more]]; cbn [itemHeadings].
      * reflexivity.
      * rewrite currentHeading_shift.
        destruct (currentHeading depth (Some link)); reflexivity.
      * rewrite currentHeading_shift.
        destruct (currentHeading depth (Some link)) as [heading | e]; [| reflexivity]. cbn.
        inversion IH as [| ? ? _ Hrest]; inversion Hrest as [| ? ? [Hsl _] _]; subst.
        rewrite <- Nat.add_succ_r, Hsl.
        destruct (listElementToTree subList (S depth)); reflexivity.
  - split; intros depth; reflexivity.
Qed.

(** X2.  The depth given to [listElementToTree] is an offset and nothing
    more: walked from [k + level], a list gives the records it gives from
    [level] with [k] added to every depth, texts and slugs unchanged, or
    throws the same value. *)
Theorem listElementToTree_depth_offset ol k level :
  listElementToTree ol (k + level) =
    match listElementToTree ol level with
    | Return found =>
        Return (map (fun heading => mkHeading (k + depth heading) (text heading)
                                              (slug heading)) found)
    | Throw e => Throw e
    end.
Proof.
  exact (proj1 (walk_shift ol k) level).
Qed.

Lemma nestedFrom_app base prev found others :
  nestedFrom base prev (found ++ others) =
    nestedFrom base prev found && nestedFrom base (lastDepth prev found) others.
Proof.
  revert prev. induction found as [| heading found IH]; intros prev; [reflexivity |].
  cbn [app nestedFrom]. rewrite IH, <- !andb_assoc. reflexivity.
Qed.

Lemma nestedFrom_base base prev found :
  nestedFrom (S base) prev found = true -> nestedFrom base prev found = true.
Proof.
  revert prev. induction found as [| heading found IH]; intros prev; [reflexivity |].
  cbn [nestedFrom]. rewrite !andb_true_iff, !Nat.leb_le. intros [[Hbase Hstep] Hrest].
  split; [split; [lia | exact Hstep] | apply IH, Hrest].
Qed.

Lemma lastDepth_ge base prev found :
  nestedFrom base prev found = true -> base <= prev -> base <= lastDepth prev found.
Proof.
  revert prev. induction found as [| heading found IH]; intros prev; [intros _ H; exact H |].
  cbn [nestedFrom]. rewrite !andb_true_iff, !Nat.leb_le. intros [[Hbase _] Hrest] _.
  exact (IH (depth heading) Hrest Hbase).
Qed.

Lemma startsAt_chunk base heading nested others :
  depth heading = base ->
  startsAt (S base) nested = true ->
  startsAt base others = true ->
  startsAt base (heading :: nested ++ others) = true.
Proof.
  intros Hdepth Hnested Hothers. cbn [startsAt]. rewrite Hdepth, Nat.eqb_refl.
  cbn [andb]. rewrite nestedFrom_app. apply andb_true_iff.
  assert (Hfirst : nestedFrom base base nested = true).
  { destruct nested as [| first nested]; [reflexivity |].
    cbn [startsAt] in Hnested. apply andb_true_iff in Hnested as [Hfirst Hrest].
    apply Nat.eqb_eq in Hfirst. cbn [nestedFrom]. rewrite Hfirst.
    rewrite !andb_true_iff, !Nat.leb_le. split; [split; lia |].
    apply nestedFrom_base. exact Hrest. }
  split; [exact Hfirst |].
  destruct others as [| next others]; [reflexivity |].
  cbn [startsAt] in Hothers. apply andb_true_iff in Hothers as [Hnext Hrest].
  apply Nat.eqb_eq in Hnext. cbn [nestedFrom]. rewrite Hnext.
  rewrite !andb_true_iff, !Nat.leb_le.
  pose proof (lastDepth_ge base base nested Hfirst (le_n base)).
  split; [split; lia | exact Hrest].
Qed.

Lemma flatMapItems_nested level lis :
  Forall (fun li => forall found, itemHeadings level li = Return found ->
            exists heading nested,
              found = heading :: nested /\ depth heading = level /\
              startsAt (S level) nested = true) lis ->
  forall found, flatMapItems level lis = Return found -> startsAt level found = true.
Proof.
  induction 1 as [| li rest Hli _ IH]; intros found.
  - intros H; inversion H. reflexivity.
  - cbn [flatMapItems].
    destruct (itemHeadings level li) as [chunk |] eqn:Hchunk; [| discriminate]. cbn.
    destruct (flatMapItems level rest) as [others |]; [| discriminate]. cbn.
    intros H; inversion H; subst.
    destruct (Hli chunk eq_refl) as (heading & nested & -> & Hdepth & Hnested).
    apply startsAt_chunk; auto.
Qed.

Lemma walk_nested node :
  (forall level found, listElementToTree node level = Return found ->
                       startsAt level found = true) /\
  (forall level found, itemHeadings level node = Return found ->
     exists heading nested,
       found = heading :: nested /\ depth heading = level /\
       startsAt (S level) nested = true).
Proof.
  induction node as [tagName properties kids IH | value] using Node_induction.
  - split; intros level found.
    + rewrite listElementToTree_Element. apply flatMapItems_nested.
      eapply Forall_impl; [exact IH |]. intros li [_ Hli]. apply Hli.
    + destruct kids as [| link [| subList more]]; cbn [itemHeadings].
      * discriminate.
      * destruct (currentHeading level (Some link)) as [heading |] eqn:Hh; [| discriminate].
        intros H; inversion H. exists heading, [].
        rewrite (currentHeading_depth _ _ _ Hh). auto.
      * destruct (currentHeading level (Some link)) as [heading |] eqn:Hh; [| discriminate].
        cbn.
        destruct (listElementToTree subList (S level)) as [nested |] eqn:Hsub; [| discriminate].
        intros H; inversion H; subst. exists heading, nested.
        inversion IH as [| ? ? _ Hrest]; inversion Hrest as [| ? ? [Hsl _] _]; subst.
        split; [reflexivity |]. split; [exact (currentHeading_depth _ _ _ Hh) |].
        exact (Hsl _ _ Hsub).
  - split; intros level found H; inversion H.
Qed.

(** X3.  The depths the extractor returns always read as a tree, whatever
    the navigation tree was: the first record is at depth 0 and every
    other record is at most one level below the record before it. *)
Theorem extractTocHeadings_depths_nest toc found :
  extractTocHeadings toc = Return found ->
  wellNested found = true.
Proof.
  unfold extractTocHeadings.
  destruct (decide (tagName_of toc = Some "nav")); [| discriminate].
  destruct toc as [tagName properties [| ol others] | value]; try discriminate.
  apply (proj1 (walk_nested ol)).
Qed.

Lemma extractTocHeadings_depths_nest_witness :
  extractTocHeadings Sample.toc1221 =
    Return [ mkHeading 0 (Some "Overview") "overview";
             mkHeading 1 (Some "Install") "install";
             mkHeading 1 (Some "Usage") "usage";
             mkHeading 0 (Some "Details") "details" ] /\
  wellNested [ mkHeading 0 (Some "Overview") "overview";
               mkHeading 1 (Some "Install") "install";
               mkHeading 1 (Some "Usage") "usage";
               mkHeading 0 (Some "Details") "details" ] = true.
Proof.
  assert (H : extractTocHeadings Sample.toc1221 =
              Return [ mkHeading 0 (Some "Overview") "overview";
                       mkHeading 1 (Some "Install") "install";
                       mkHeading 1 (Some "Usage") "usage";
                       mkHeading 0 (Some "Details") "details" ]) by reflexivity.
  split; [exact H |].
  exact (extractTocHeadings_depths_nest Sample.toc1221 _ H).
Defined.

(** ** The block materializer, listing by listing *)

Ltac unfold_afterImages := unfold afterImages, fetchFailures, resolved.
Ltac step_runCalls := cbn [runCalls].
Ltac unfold_resume_call := cbn [resume].
Ltac unfold_batch := unfold callOn, ownFile, fromBatch, ownHeadings.

Section Materializer.

Variable fileToImageAsset : MediaFile -> Completion ImageAsset.
Variable fileToUrl : MediaFile -> string.

Local Abbreviation fetchImage := (fetchImage fileToImageAsset fileToUrl).
Local Abbreviation render := (render fileToImageAsset fileToUrl).
Local Abbreviation resolved := (resolved fileToImageAsset).
Local Abbreviation urlFor := (urlFor fileToImageAsset fileToUrl).
Local Abbreviation fetchFailures := (fetchFailures fileToImageAsset).
Local Abbreviation afterImages := (afterImages fileToImageAsset).

Lemma headers_next block rest :
  fullHeaders (NextBlock block rest) =
    (match block with
     | PartialBlock _ => []
     | FullBlock id has_children content _ => [(id, contentType content, has_children)]
     end ++ fullHeaders rest)%list.
Proof. destruct block; reflexivity. Qed.

Lemma yields_headers (fetch : MediaFile -> M string) :
  (forall block s yielded s',
      yieldOf fetch block s = (Return yielded, s') ->
      map blockHeader (option_list yielded) =
        match block with
        | PartialBlock _ => []
        | FullBlock id has_children content _ => [(id, contentType content, has_children)]
        end) /\
  (forall items s blocks s',
      listBlocks fetch items s = (Return blocks, s') ->
      map blockHeader blocks = fullHeaders items).
Proof.
  apply Remote_mutind.
  - intros id s yielded s' H. inversion H. reflexivity.
  - intros id has_children content listed _ s yielded s'.
    cbn [yieldOf]. rewrite bind_run.
    destruct ((if has_children
               then children ← listBlocks fetch listed; mret (Some children)
               else mret None) s) as [[children | e] s1]; [| discriminate].
    destruct content as [image | video | type payload].
    + rewrite bind_run. destruct (fetch image s1) as [[url | e] s2]; [| discriminate].
      intros H; inversion H. reflexivity.
    + intros H; inversion H. reflexivity.
    + intros H; inversion H. reflexivity.
  - intros s blocks s' H. inversion H. reflexivity.
  - intros e s blocks s' H. inversion H.
  - intros block IHblock rest IHrest s blocks s'.
    cbn [listBlocks]. rewrite bind_run.
    destruct (yieldOf fetch block s) as [[yielded | e] s1] eqn:Hblock; [| discriminate].
    rewrite bind_run.
    destruct (listBlocks fetch rest s1) as [[others | e] s2] eqn:Hrest; [| discriminate].
    intros H; inversion H; subst.
    rewrite headers_next, map_app, (IHblock _ _ _ Hblock), (IHrest _ _ _ Hrest).
    reflexivity.
Qed.

(** X4.  Whatever function is passed as [fetchImage], the blocks
    [listBlocks] returns are the full blocks of the listing, one for one
    and in the order delivered, each with its id, kind and [has_children]
    flag unchanged; placeholders are the only blocks left out. *)
Theorem listBlocks_keeps_full_blocks (fetch : MediaFile -> M string) items s blocks s' :
  listBlocks fetch items s = (Return blocks, s') ->
  map blockHeader blocks = fullHeaders items.
Proof.
  apply (proj2 (yields_headers fetch)).
Qed.

Lemma afterImages_nil this s : afterImages this [] s = s.
Proof.
  unfold_afterImages. destruct s. cbn. rewrite !app_nil_r. reflexivity.
Qed.

Lemma afterImages_app this files files' s :
  afterImages this (files ++ files') s = afterImages this files' (afterImages this files s).
Proof.
  unfold_afterImages. cbn. rewrite !flat_map_app, <- !app_assoc. reflexivity.
Qed.

Lemma fetchImage_exact this file s :
  fetchImage this file s = (Return (urlFor file), afterImages this [file] s).
Proof.
  unfold_fetchImage. unfold_afterImages. cbn [flat_map].
  destruct (fileToImageAsset file); cbn; rewrite ?app_nil_r; reflexivity.
Qed.

Lemma materialize_exact this :
  (forall block s,
      yieldOf (fetchImage this) block s =
        (match blockFailure block with
         | Some e => Throw e
         | None => Return (blockWith urlFor block)
         end, afterImages this (blockReached block) s)) /\
  (forall items s,
      listBlocks (fetchImage this) items s =
        (match firstFailure items with
         | Some e => Throw e
         | None => Return (blocksWith urlFor items)
         end, afterImages this (imagesReached items) s)).
Proof.
  apply Remote_mutind.
  - intros id s. cbn. rewrite afterImages_nil. reflexivity.
  - intros id has_children content listed IH s.
    cbn [yieldOf blockFailure blockReached blockWith]. rewrite bind_run.
    destruct has_children.
    + rewrite bind_run, IH.
      destruct (firstFailure listed) as [e |].
      * rewrite app_nil_r. reflexivity.
      * cbn [mret St_ret]. destruct content as [image | video | type payload].
        -- rewrite bind_run, fetchImage_exact, afterImages_app. reflexivity.
        -- rewrite app_nil_r. reflexivity.
        -- rewrite app_nil_r. reflexivity.
    + cbn [mret St_ret app]. destruct content as [image | video | type payload].
      * rewrite bind_run, fetchImage_exact. reflexivity.
      * rewrite afterImages_nil. reflexivity.
      * rewrite afterImages_nil. reflexivity.
  - intros s. cbn. rewrite afterImages_nil. reflexivity.
  - intros e s. cbn. rewrite afterImages_nil. reflexivity.
  - intros block IHblock rest IHrest s.
    cbn [listBlocks firstFailure imagesReached blocksWith]. rewrite bind_run, IHblock.
    destruct (blockFailure block) as [e |].
    + rewrite app_nil_r. reflexivity.
    + rewrite bind_run, IHrest, afterImages_app.
      destruct (firstFailure rest); reflexivity.
Qed.

(** X5.  [listBlocks] throws exactly when a listing it walks fails, and
    then throws the value of the first such failure, unchanged; otherwise
    it returns the block tree, each image with its local reference or, when
    its resolution failed, with [fileToUrl] of its file.  Either way the
    store is changed by the images met before the failure and nothing else:
    for each, in order, one call of the resolver, the reference pushed when
    the call succeeds, one error line logged when it fails. *)
Theorem listBlocks_outcome this items s :
  listBlocks (fetchImage this) items s =
    (match firstFailure items with
     | Some e => Throw e
     | None => Return (blocksWith urlFor items)
     end,
     mkStore (imagePaths s ++ resolved (imagesReached items))
             (logged s ++ fetchFailures this (imagesReached items))
             (assetCalls s ++ imagesReached items)
             (captured s)).
Proof.
  exact (proj2 (materialize_exact this) items s).
Qed.

Lemma prune_same (fetch : MediaFile -> M string) :
  (forall block s, yieldOf fetch (pruneBlock block) s = yieldOf fetch block s) /\
  (forall items s, listBlocks fetch (prune items) s = listBlocks fetch items s).
Proof.
  apply Remote_mutind; try reflexivity.
  - intros id has_children content listed IH s.
    cbn [pruneBlock yieldOf]. destruct has_children; [| reflexivity].
    rewrite !bind_run, IH. reflexivity.
  - intros block IHblock rest IHrest s.
    cbn [prune listBlocks]. rewrite !bind_run, IHblock.
    destruct (yieldOf fetch block s) as [[yielded | e] s1]; [| reflexivity].
    rewrite !bind_run, IHrest. reflexivity.
Qed.

(** X6.  A block that declares no children is never listed: whatever the
    API would serve under such blocks, even a failure, [listBlocks] behaves
    as if nothing were there. *)
Theorem listBlocks_skips_leaf_listings (fetch : MediaFile -> M string) items s :
  listBlocks fetch (prune items) s = listBlocks fetch items s.
Proof.
  apply (proj2 (prune_same fetch)).
Qed.

End Materializer.

Lemma listBlocks_keeps_full_blocks_witness :
  exists blocks s',
    listBlocks (fetchImage Sample.resolver file_url (Sample.renderer Sample.pageListing))
               Sample.pageListing Sample.emptyStore = (Return blocks, s') /\
    map blockHeader blocks =
      [("b1", "heading_1", false); ("b2", "image", false);
       ("b3", "toggle", true); ("b6", "video", false)].
Proof.
  destruct (listBlocks (fetchImage Sample.resolver file_url
                                   (Sample.renderer Sample.pageListing))
                       Sample.pageListing Sample.emptyStore) as [[blocks | e] s'] eqn:Hrun;
    [| vm_compute in Hrun; discriminate Hrun].
  exists blocks, s'. split; [reflexivity |].
  exact (listBlocks_keeps_full_blocks _ _ _ _ _ Hrun).
Defined.

(** ** The page renderer, line by line *)

Section Rendering.

Variable fileToImageAsset : MediaFile -> Completion ImageAsset.
Variable fileToUrl : MediaFile -> string.

Local Abbreviation fetchImage := (fetchImage fileToImageAsset fileToUrl).
Local Abbreviation render := (render fileToImageAsset fileToUrl).
Local Abbreviation resolved := (resolved fileToImageAsset).
Local Abbreviation urlFor := (urlFor fileToImageAsset fileToUrl).
Local Abbreviation fetchFailures := (fetchFailures fileToImageAsset).
Local Abbreviation afterImages := (afterImages fileToImageAsset).

Lemma reached_all :
  (forall block, blockFailure block = None -> blockReached block = blockImages block) /\
  (forall items, firstFailure items = None -> imagesReached items = imagesOf items).
Proof.
  apply Remote_mutind; try reflexivity.
  - intros id has_children content listed IH Hnone.
    cbn [blockReached blockImages]. rewrite Hnone. cbn [blockFailure] in Hnone.
    destruct has_children; [rewrite (IH Hnone) |]; destruct content; reflexivity.
  - intros block IHblock rest IHrest. cbn [firstFailure imagesReached imagesOf].
    destruct (blockFailure block); [discriminate |].
    intros Hrest. rewrite (IHblock eq_refl), (IHrest Hrest). reflexivity.
Qed.

(** [render] in closed form. *)
Lemma render_exact this process s :
  render this process s =
    let s1 := afterImages this (imagesReached (client this))
                          (logLine LogDebug this "Rendering" s) in
    match firstFailure (client this) with
    | Some e =>
        (Return None,
         logLine LogError this ("Failed to render: " +:+ getErrorMessage e) s1)
    | None =>
        match process (blocksWith urlFor (client this)) (captured s) with
        | (Return output, slot) =>
            (Return (Some (mkEntry (toString (vFile output))
                                   (mkMetadata (headings output) (imagePaths s1)))),
             logLine LogDebug this "Rendered" (withCaptured slot s1))
        | (Throw e, slot) =>
            (Return None,
             logLine LogError this ("Failed to render: " +:+ getErrorMessage e)
                     (withCaptured slot s1))
        end
    end.
Proof.
  rewrite render_run, (proj2 (materialize_exact fileToImageAsset fileToUrl this)).
  destruct (firstFailure (client this)); reflexivity.
Qed.

(** X7.  The lines a successful render logs are, in order: the debug line
    [Rendering], one error line for each image of the page whose
    resolution failed, in document order, and the debug line [Rendered];
    all of them under the label of the instance. *)
Theorem render_log_of_success this process s entry s' :
  render this process s = (Return (Some entry), s') ->
  logged s' =
    (logged s ++
     [mkLogEntry LogDebug (logger this) "Rendering"] ++
     flat_map (fun file =>
                 match fileToImageAsset file with
                 | Return _ => []
                 | Throw error =>
                     [mkLogEntry LogError (logger this)
                                 (fetchFailedMessage (getErrorMessage error))]
                 end) (imagesOf (client this)) ++
     [mkLogEntry LogDebug (logger this) "Rendered"])%list.
Proof.
  rewrite render_exact. cbv zeta.
  destruct (firstFailure (client this)) as [e |] eqn:Hfailure; [discriminate |].
  rewrite (proj2 reached_all _ Hfailure).
  destruct (process (blocksWith urlFor (client this)) (captured s)) as [[output | e] slot];
    [| discriminate].
  intros H; inversion H; subst. cbn. rewrite <- !app_assoc. reflexivity.
Qed.

(** X8.  When a listing of the page fails, [render] returns the absent
    value without calling [process] (the variable of the pipeline is as it
    was), its last line is the error [Failed to render: ] followed by the
    message of that failure, and the images met before the failure were
    resolved all the same: their references stay in [#imagePaths]. *)
Theorem render_listing_failure this process s e :
  firstFailure (client this) = Some e ->
  exists s',
    render this process s = (Return None, s') /\
    captured s' = captured s /\
    imagePaths s' = (imagePaths s ++ resolved (imagesReached (client this)))%list /\
    assetCalls s' = (assetCalls s ++ imagesReached (client this))%list /\
    logged s' =
      (logged s ++
       [mkLogEntry LogDebug (logger this) "Rendering"] ++
       fetchFailures this (imagesReached (client this)) ++
       [mkLogEntry LogError (logger this)
                   ("Failed to render: " +:+ getErrorMessage e)])%list.
Proof.
  intros Hfailure. rewrite render_exact, Hfailure. cbv zeta.
  eexists. split; [reflexivity |]. cbn. rewrite <- !app_assoc. auto.
Qed.

(** X9.  A render that fails in the pipeline has pushed the references
    of its images already, and they are not taken back: the next
    successful render on the instance returns them before its own, so
    that every reference of the page comes twice. *)
Theorem render_failed_attempt_counts this process1 process2 s s1 entry s2 :
  firstFailure (client this) = None ->
  render this process1 s = (Return None, s1) ->
  render this process2 s1 = (Return (Some entry), s2) ->
  md_imagePaths (metadata entry) =
    (imagePaths s ++ resolved (imagesOf (client this))
                  ++ resolved (imagesOf (client this)))%list.
Proof.
  intros Hfailure. rewrite !render_exact, Hfailure, (proj2 reached_all _ Hfailure). cbv zeta.
  destruct (process1 (blocksWith urlFor (client this)) (captured s)) as [[output | e] slot];
    [discriminate |].
  intros H; inversion H; subst; clear H.
  destruct (process2 _ _) as [[output | e'] slot']; [| discriminate].
  intros H; inversion H; subst; clear H. cbn. rewrite <- !app_assoc. reflexivity.
Qed.

End Rendering.

(** ** The pipeline, stage by stage *)

Section Chain.

Variable notionRehype : list Block -> Completion Node.
Variable rehypeSlug rehypeKatex : Node -> Completion Node.
Variable createTOC : Node -> Node.
Variable insertTOC : Node -> Node -> Node.
Variable rehypeStringify : Node -> string.
Variable Options : Type.

Local Abbreviation Plugins := (list (RehypePlugin Options * Options)).
Local Abbreviation buildProcessor :=
  (buildProcessor notionRehype rehypeSlug rehypeKatex createTOC insertTOC
                  rehypeStringify Options).
Local Abbreviation runPlugins := (runPlugins Options).
Local Abbreviation markupOf := (markupOf notionRehype rehypeSlug rehypeKatex).
Local Abbreviation fileOf := (fileOf rehypeStringify Options).


(** X11.  What a call returns or throws does not depend on what the
    captured variable held when it started: run one after the other, calls
    are isolated, and the same blocks give the same file and headings
    again. *)
Theorem buildProcessor_ignores_slot
        (rehypePlugins : Completion Plugins) blocks (slot slot' : Slot) :
  fst (buildProcessor rehypePlugins blocks slot) =
  fst (buildProcessor rehypePlugins blocks slot').
Proof.
  destruct rehypePlugins as [plugins | e]; [| reflexivity].
  rewrite !buildProcessor_run.
  destruct (markupOf blocks) as [tree | e]; [| reflexivity].
  destruct (extractTocHeadings (createTOC tree)); reflexivity.
Qed.


(** X13.  When the table-of-contents stage hands over a root that is no
    [nav], the call throws [Error("Expected nav, got <tag>")] and the
    captured variable is left as it was. *)
Theorem buildProcessor_structure_error (plugins : Plugins) blocks slot tree :
  markupOf blocks = Return tree ->
  tagName_of (createTOC tree) <> Some "nav" ->
  buildProcessor (Return plugins) blocks slot =
    (Throw (ErrorObject "Error"
                        ("Expected nav, got " +:+ template (tagName_of (createTOC tree)))),
     slot).
Proof.
  intros Hmarkup Hroot. rewrite buildProcessor_run, Hmarkup.
  unfold extractTocHeadings.
  destruct (decide (tagName_of (createTOC tree) = Some "nav")); [contradiction | reflexivity].
Qed.

End Chain.

(** ** The renderer on a built pipeline *)

Section EndToEnd.

Variable fileToImageAsset : MediaFile -> Completion ImageAsset.
Variable fileToUrl : MediaFile -> string.
Variable notionRehype : list Block -> Completion Node.
Variable rehypeSlug rehypeKatex : Node -> Completion Node.
Variable createTOC : Node -> Node.
Variable insertTOC : Node -> Node -> Node.
Variable rehypeStringify : Node -> string.
Variable Options : Type.

Local Abbreviation Plugins := (list (RehypePlugin Options * Options)).
Local Abbreviation render := (render fileToImageAsset fileToUrl).
Local Abbreviation resolved := (resolved fileToImageAsset).
Local Abbreviation urlFor := (urlFor fileToImageAsset fileToUrl).
Local Abbreviation fetchFailures := (fetchFailures fileToImageAsset).
Local Abbreviation buildProcessor :=
  (buildProcessor notionRehype rehypeSlug rehypeKatex createTOC insertTOC
                  rehypeStringify Options).
Local Abbreviation markupOf := (markupOf notionRehype rehypeSlug rehypeKatex).
Local Abbreviation fileOf := (fileOf rehypeStringify Options).





End EndToEnd.

(** ** The further properties on the sample pages *)

Lemma render_log_of_success_witness :
  exists entry s',
    render Sample.resolver file_url (Sample.renderer Sample.pageListing) Sample.build
           Sample.emptyStore = (Return (Some entry), s') /\
    map level (logged s') = [LogDebug; LogError; LogDebug].
Proof.
  destruct (render Sample.resolver file_url (Sample.renderer Sample.pageListing)
                   Sample.build Sample.emptyStore) as [[[entry |] | e] s'] eqn:Hrender;
    try (vm_compute in Hrender; discriminate Hrender).
  exists entry, s'. split; [reflexivity |].
  rewrite (render_log_of_success _ _ _ _ _ _ _ Hrender). reflexivity.
Defined.

Lemma render_listing_failure_witness :
  firstFailure Cases.failingListing = Some Cases.rateLimited /\
  exists s',
    render Sample.resolver file_url (Sample.renderer Cases.failingListing) Sample.build
           Sample.emptyStore = (Return None, s') /\
    imagePaths s' = ["/_astro/https://x.test/a.png"] /\
    assetCalls s' =
      [Sample.external "https://x.test/a.png"; Sample.uploaded "https://s3.test/b.png"] /\
    map message (logged s') =
      ["Rendering";
       fetchFailedMessage "fetch failed";
       "Failed to render: rate limited"].
Proof.
  split; [reflexivity |].
  destruct (render_listing_failure Sample.resolver file_url
              (Sample.renderer Cases.failingListing) Sample.build Sample.emptyStore
              Cases.rateLimited eq_refl) as (s' & Hrender & _ & Hpaths & Hcalls & Hlog).
  exists s'. split; [exact Hrender |]. split; [exact Hpaths |]. split; [exact Hcalls |].
  rewrite Hlog. reflexivity.
Defined.

Lemma render_failed_attempt_counts_witness :
  exists s1 entry s2,
    render Sample.resolver file_url (Sample.renderer Sample.pageListing)
           (buildProcessor Sample.parse Sample.identityStage Sample.identityStage
                           Sample.tocStage (fun _ tree => tree) Sample.stringify string
                           (Return [(Cases.throwingPlugin, "boom")]))
           Sample.emptyStore = (Return None, s1) /\
    render Sample.resolver file_url (Sample.renderer Sample.pageListing) Sample.build s1 =
      (Return (Some entry), s2) /\
    md_imagePaths (metadata entry) =
      ["/_astro/https://x.test/a.png"; "/_astro/https://x.test/a.png"].
Proof.
  destruct (render Sample.resolver file_url (Sample.renderer Sample.pageListing)
             (buildProcessor Sample.parse Sample.identityStage Sample.identityStage
                             Sample.tocStage (fun _ tree => tree) Sample.stringify string
                             (Return [(Cases.throwingPlugin, "boom")]))
             Sample.emptyStore) as [[[entry1 |] | e] s1] eqn:Hfirst;
    try (vm_compute in Hfirst; discriminate Hfirst).
  destruct (render Sample.resolver file_url (Sample.renderer Sample.pageListing)
                   Sample.build s1) as [[[entry |] | e] s2] eqn:Hsecond.
  - exists s1, entry, s2. split; [reflexivity |]. split; [exact Hsecond |].
    exact (render_failed_attempt_counts Sample.resolver file_url
             (Sample.renderer Sample.pageListing) _ _ _ _ _ _ eq_refl Hfirst Hsecond).
  - exfalso. vm_compute in Hfirst. inversion Hfirst; subst. vm_compute in Hsecond.
    discriminate Hsecond.
  - exfalso. vm_compute in Hfirst. inversion Hfirst; subst. vm_compute in Hsecond.
    discriminate Hsecond.
Defined.


Lemma buildProcessor_structure_error_witness :
  tagName_of (Cases.divStage (Element "div" ∅ [])) <> Some "nav" /\
  buildProcessor Sample.parse Sample.identityStage Sample.identityStage Cases.divStage
                 (fun _ tree => tree) Sample.stringify unit (Return []) Sample.docA
                 [mkHeading 0 (Some "Beta") "Beta"] =
    (Throw (ErrorObject "Error" "Expected nav, got div"), [mkHeading 0 (Some "Beta") "Beta"]).
Proof.
  assert (Hroot : forall tree, tagName_of (Cases.divStage tree) <> Some "nav")
    by (intros tree; discriminate).
  split; [apply Hroot |].
  destruct (markupOf Sample.parse Sample.identityStage Sample.identityStage Sample.docA)
    as [tree | e] eqn:Hmarkup; [| vm_compute in Hmarkup; discriminate Hmarkup].
  exact (buildProcessor_structure_error
           Sample.parse Sample.identityStage Sample.identityStage Cases.divStage
           (fun _ tree => tree) Sample.stringify unit [] Sample.docA
           [mkHeading 0 (Some "Beta") "Beta"] tree Hmarkup (Hroot tree)).
Defined.




(** ** Calls in flight, in any order *)

Section Interleaving.

Variable notionRehype : list Block -> Completion Node.
Variable rehypeSlug rehypeKatex : Node -> Completion Node.
Variable createTOC : Node -> Node.
Variable insertTOC : Node -> Node -> Node.
Variable rehypeStringify : Node -> string.
Variable Options : Type.

Local Abbreviation Plugins := (list (RehypePlugin Options * Options)).
Local Abbreviation resume :=
  (resume notionRehype rehypeSlug rehypeKatex createTOC insertTOC rehypeStringify Options).
Local Abbreviation runCalls :=
  (runCalls notionRehype rehypeSlug rehypeKatex createTOC insertTOC rehypeStringify Options).
Local Abbreviation processorPromise :=
  (processorPromise rehypeSlug rehypeKatex createTOC insertTOC Options).
Local Abbreviation processor_process := (processor_process notionRehype rehypeStringify).
Local Abbreviation markupOf := (markupOf notionRehype rehypeSlug rehypeKatex).
Local Abbreviation ownFile :=
  (ownFile notionRehype rehypeSlug rehypeKatex createTOC rehypeStringify Options).
Local Abbreviation fromBatch :=
  (fromBatch notionRehype rehypeSlug rehypeKatex createTOC).
Local Abbreviation callOn :=
  (callOn notionRehype rehypeSlug rehypeKatex createTOC rehypeStringify Options).

Lemma resume_keeps (plugins : Plugins) initial batch blocks call slot :
  blocks ∈ batch ->
  callOn plugins initial batch blocks call ->
  fromBatch initial batch slot ->
  callOn plugins initial batch blocks (fst (resume (Return plugins) call slot)) /\
  fromBatch initial batch (snd (resume (Return plugins) call slot)).
Proof.
  intros Hin Hcall Hslot. destruct call as [given | [file | e] | result].
  - cbn in Hcall. subst given. unfold_resume_call.
    destruct (processorPromise (Return plugins)) as [processor | e] eqn:Hbuilt;
      [| discriminate Hbuilt].
    rewrite (processor_process_run _ _ _ _ _ _ _ plugins processor blocks slot Hbuilt).
    unfold_batch.
    destruct (markupOf blocks) as [tree | e] eqn:Hmarkup; [| cbn; auto].
    cbn [mbind Completion_bind].
    destruct (extractTocHeadings (createTOC tree)) as [found | e] eqn:Hfound; cbn; [| auto].
    split; [reflexivity |]. right. exists blocks. split; [exact Hin |].
    rewrite Hmarkup. exact Hfound.
  - cbn in *. auto.
  - cbn in *. auto.
  - cbn. auto.
Qed.

Lemma runCalls_keeps (plugins : Plugins) initial batch schedule :
  forall calls slot,
    Forall2 (callOn plugins initial batch) batch calls ->
    fromBatch initial batch slot ->
    Forall2 (callOn plugins initial batch) batch
            (fst (runCalls (Return plugins) schedule calls slot)) /\
    fromBatch initial batch (snd (runCalls (Return plugins) schedule calls slot)).
Proof.
  induction schedule as [| i later IH]; intros calls slot Hcalls Hslot; [auto |].
  step_runCalls.
  destruct (calls !! i) as [call |] eqn:Hcall; [| apply IH; assumption].
  destruct (Forall2_lookup_r _ _ _ _ _ Hcalls Hcall) as (blocks & Hblocks & Hon).
  assert (Hin : blocks ∈ batch) by (eapply list_elem_of_lookup_2; exact Hblocks).
  destruct (resume_keeps plugins initial batch blocks call slot Hin Hon Hslot)
    as [Hon' Hslot'].
  destruct (resume (Return plugins) call slot) as [call' slot'].
  apply IH; [| exact Hslot'].
  pose proof (Forall2_insert _ _ _ blocks call' i Hcalls Hon') as Hinserted.
  rewrite (list_insert_id batch i blocks Hblocks) in Hinserted. exact Hinserted.
Qed.

(** X16.  Whatever the order in which a batch of calls on one built
    pipeline is resumed, a call that returns returns the file of its own
    blocks and a call that throws throws what its own chain throws; the
    headings a call returns are those of one of the block trees of the
    batch, or what the captured variable held before the batch.  The
    shared variable can hand a call the headings of another call, and
    nothing else crosses over. *)
Theorem calls_keep_their_file (plugins : Plugins) initial batch schedule :
  Forall2 (callOn plugins initial batch) batch
          (fst (runCalls (Return plugins) schedule (map Called batch) initial)) /\
  fromBatch initial batch
            (snd (runCalls (Return plugins) schedule (map Called batch) initial)).
Proof.
  apply runCalls_keeps.
  - assert (Hcalled : forall given,
               Forall2 (callOn plugins initial batch) given (map Called given)).
    { intros given.
      induction given as [| blocks given IH]; constructor; [reflexivity | exact IH]. }
    apply Hcalled.
  - left. reflexivity.
Qed.

End Interleaving.

